(** * SwiftInvoice: calculations, in-memory state and local-storage persistence

    A shallow embedding of [calculations.js], [state.js] (version 2.0, with
    auto-incrementing invoice numbers), [storage.js] and the handlers of
    [ui.js] and [main.js] that save, load and start an invoice.

    Conventions of the embedding.
    - A JavaScript number is a double.  [calculations.js] is written over the
      binary64 floats ([float]: IEEE 754 arithmetic, both zeros, the
      infinities and [NaN]); an argument that is [undefined] or not numeric
      is the [NaN] that [parseFloat] makes of it.
    - The amounts held by the state and by a stored invoice are finite
      doubles, written as the rationals they denote ([Q]) and compared with
      [==]; the values that reach the coercion [parseFloat(x) || d] there are
      a finite number, [NaN] or [undefined] (type [value]).  A product is
      rounded to the nearest double ([nearest_double_Q]); a product beyond
      the largest finite double, [Infinity] in the program, is outside this
      type.
    - Item identifiers and the ordinals read off invoice numbers are
      integer-valued doubles, written as integers ([Z]).  Adding one rounds
      to the nearest double ([nearest_double]), so that [2^53 + 1] is [2^53].
      What is left to the engine is a parameter ([engine]): how many
      arguments a call takes before it raises [RangeError], and the reading
      and printing of integers too long for plain digits.  The limit on
      arguments is modelled where the store is spread ([Math.max] in
      [generateInvoiceNumber]); the items of one invoice are taken to be
      fewer than the limit.
    - An object read back from JSON is a record whose fields are optional
      ([None] is an absent field, read as [undefined] by the code); a field
      that is present has the type the program writes it with.
    - [localStorage] holds, under the one key the program uses, nothing, a text
      that [JSON.parse] rejects, or the encoding of an array of invoices.
      [setItem] is taken to succeed (no quota failure), so the [catch] branches
      of the writers are not reached; the one of [getAllInvoices] is. *)

From Stdlib Require Import Floats.
From Stdlib Require Import ZArith QArith Lia.
From Stdlib Require Import Ascii String Decimal DecimalPos DecimalString.
From stdpp Require Import base option list strings.

(** ** calculations.js *)

Module Calculations.

Record totals : Type := mkTotals {
  subtotal : float;
  tax : float;
  discount : float;
  total : float
}.

(** A number is truthy unless it is [NaN], [0] or [-0]. *)
Definition truthy (x : float) : bool := ((x <? 0) || (0 <? x))%float.

(** [parseFloat(x) || 0]; [parseFloat] of a number is that number, but for
    [-0], which it reads back as [0]. *)
Definition parseFloat_or_zero (x : float) : float :=
  if truthy x then x else 0%float.

Definition is_negative_zero (x : float) : bool :=
  match classify x with
  | NZero => true
  | _ => false
  end.

Definition is_positive_zero (x : float) : bool :=
  match classify x with
  | PZero => true
  | _ => false
  end.

(** [Math.max(a, b)]: [NaN] when an argument is, and [0] above [-0]. *)
Definition Math_max2 (a b : float) : float :=
  if is_nan a || is_nan b then nan
  else if is_negative_zero a && is_positive_zero b then b
  else if (a <? b)%float then b else a.

Definition calculateTax (subtotal taxRate : float) : float :=
  let sub := parseFloat_or_zero subtotal in
  let rate := parseFloat_or_zero taxRate in
  ((sub * rate) / 100)%float.

Definition calculateTotal (subtotal taxRate discount : float) : totals :=
  let sub := parseFloat_or_zero subtotal in
  let tax := calculateTax sub taxRate in
  let disc := parseFloat_or_zero discount in
  let total := (sub + tax - disc)%float in
  {| subtotal := sub;
     tax := tax;
     discount := disc;
     total := Math_max2 0 total |}.

End Calculations.

(** ** JavaScript values that reach the numeric coercions of the state *)

Inductive value : Type :=
  | Undefined
  | NaN
  | Num (q : Q).

(** [parseFloat(v)] on a number is that number; on [undefined] it is [NaN]. *)
Definition parseFloat (v : value) : value :=
  match v with
  | Undefined => NaN
  | NaN => NaN
  | Num q => Num q
  end.

(** [parseFloat(v) || d]: [NaN] and zero are falsy and give the default. *)
Definition parseFloat_or (v : value) (d : Q) : Q :=
  match parseFloat v with
  | Num q => if Qeq_bool q 0 then d else q
  | _ => d
  end.

(** ** Rounding to the doubles *)

(** The integer-valued double nearest to the integer [x], ties to the even
    mantissa: [x] itself up to [2^53] in size, a multiple of the spacing of
    the doubles beyond. *)
Definition nearest_double (x : Z) : Z :=
  let a := Z.abs x in
  if (a <? 2 ^ 53)%Z then x
  else
    let e := (Z.log2 a - 52)%Z in
    let q := (a / 2 ^ e)%Z in
    let r := (a mod 2 ^ e)%Z in
    let half := (2 ^ (e - 1))%Z in
    let q' := if (r <? half)%Z then q
              else if (half <? r)%Z then (q + 1)%Z
              else if Z.even q then q else (q + 1)%Z in
    (Z.sgn x * (q' * 2 ^ e))%Z.

(** For positive [n] and [d], the [e] with [2^e <= n/d < 2^(e+1)]. *)
Definition floor_log2_ratio (n d : Z) : Z :=
  let e0 := (Z.log2 n - Z.log2 d)%Z in
  if (if (0 <=? e0)%Z then (d * 2 ^ e0 <=? n)%Z
      else (d <=? n * 2 ^ (- e0))%Z)
  then e0 else (e0 - 1)%Z.

(** The double nearest to the rational [q], ties to the even mantissa, with
    53 bits of mantissa and the subnormals below [2^-1022], in lowest
    terms. *)
Definition nearest_double_Q (q : Q) : Q :=
  if Qeq_bool q 0 then 0%Q
  else
    let n := Z.abs (Qnum q) in
    let d := Zpos (Qden q) in
    let e := floor_log2_ratio n d in
    let k := (Z.max e (-1022) - 52)%Z in
    let num := if (0 <=? k)%Z then n else (n * 2 ^ (- k))%Z in
    let den := if (0 <=? k)%Z then (d * 2 ^ k)%Z else d in
    let m := (num / den)%Z in
    let r := (num mod den)%Z in
    let m' := if (2 * r <? den)%Z then m
              else if (den <? 2 * r)%Z then (m + 1)%Z
              else if Z.even m then m else (m + 1)%Z in
    let mag := if (0 <=? k)%Z then inject_Z (m' * 2 ^ k)
               else Qmake m' (Z.to_pos (2 ^ (- k))) in
    Qred (if (Qnum q <? 0)%Z then Qopp mag else mag).

(** [a * b] on doubles. *)
Definition times (a b : Q) : Q := nearest_double_Q (a * b).

(** ** Built-ins of the language used by the program *)

(** [Math.max(x, ...xs)] on integers, for a non-empty argument list. *)
Definition Math_max (x : Z) (xs : list Z) : Z := foldl Z.max x xs.

(** The decimal digits of an integer. *)
Definition decimal (n : Z) : string := NilEmpty.string_of_int (Z.to_int n).

Fixpoint repeat_char (c : ascii) (n : nat) : string :=
  match n with
  | O => ""
  | S k => String c (repeat_char c k)
  end.

(** [s.padStart(targetLength, c)] for a one-character filler. *)
Definition padStart (targetLength : nat) (c : ascii) (s : string) : string :=
  repeat_char c (targetLength - String.length s) +:+ s.

(** The class [\d]. *)
Definition is_digit (c : ascii) : bool :=
  (48 <=? nat_of_ascii c)%nat && (nat_of_ascii c <=? 57)%nat.

(** The longest run of digits at the start of [s] (a greedy [\d*]). *)
Fixpoint take_digits (s : string) : string :=
  match s with
  | String c s' => if is_digit c then String c (take_digits s') else ""
  | "" => ""
  end.

(** [strip_prefix p s] is what follows [p] when [s] starts with [p]. *)
Fixpoint strip_prefix (p s : string) : option string :=
  match p, s with
  | "", _ => Some s
  | String a p', String b s' =>
      if Ascii.eqb a b then strip_prefix p' s' else None
  | String _ _, "" => None
  end.

(** The attempt of [/INV-(\d+)/] at the first character of [s]: the capture,
    or [""] when the pattern does not match there. *)
Definition INV_digits_here (s : string) : string :=
  match strip_prefix "INV-" s with
  | Some r => take_digits r
  | None => ""
  end.

(** [s.match(/INV-(\d+)/)]: the capture group of the leftmost match, [None]
    for [null].  The pattern is not anchored. *)
Fixpoint match_INV_digits (s : string) : option string :=
  match INV_digits_here s with
  | String c d => Some (String c d)
  | "" =>
      match s with
      | "" => None
      | String _ s' => match_INV_digits s'
      end
  end.

(** The number a string of digits writes. *)
Definition digits_value (d : string) : Z :=
  match NilEmpty.uint_of_string d with
  | Some u => Z.of_uint u
  | None => 0%Z
  end.

(** The outcome of the integer arithmetic of [generateInvoiceNumber]: an
    integer-valued double or an infinity ([Math.max()] of no argument is
    [-Infinity]). *)
Inductive number : Type :=
  | MinusInfinity
  | Int (z : Z)
  | PlusInfinity.

(** What is left to the engine here: how many arguments a call can spread
    before the engine raises [RangeError]; the reading of a numeral of more
    than 20 digits by [parseInt], whose digits after the 20th an engine may
    replace by zeros; and the text of an integer beyond [2^53], for which
    [String] gives the shortest digits that read back as the same double
    (with an exponent from [10^21] on), not the digits of the integer. *)
Record engine : Type := mkEngine {
  argument_limit : Z;
  parseInt_long : string -> number;
  String_long : Z -> string
}.

(** [parseInt(d)] for a capture of [\d+]. *)
Definition parseInt (js : engine) (d : string) : number :=
  let v := digits_value d in
  if (v <? 10 ^ 20)%Z then Int (nearest_double v) else parseInt_long js d.

(** [String(x)] *)
Definition String_of (js : engine) (x : number) : string :=
  match x with
  | MinusInfinity => "-Infinity"
  | PlusInfinity => "Infinity"
  | Int z => if (Z.abs z <=? 2 ^ 53)%Z then decimal z else String_long js z
  end.

Definition max_number (a b : number) : number :=
  match a, b with
  | PlusInfinity, _ | _, PlusInfinity => PlusInfinity
  | MinusInfinity, x | x, MinusInfinity => x
  | Int x, Int y => Int (Z.max x y)
  end.

(** [Math.max(...xs)] *)
Definition Math_max_of (xs : list number) : number :=
  foldl max_number MinusInfinity xs.

(** [x + 1] *)
Definition plus_one (x : number) : number :=
  match x with
  | Int z => Int (nearest_double (z + 1))
  | _ => x
  end.

(** A completed computation: a returned value or a raised exception; the
    same for a promise, resolved or rejected. *)
Inductive error : Type :=
  | TypeError
  | RangeError
  | SyntaxError
  | InvalidFileFormat
  | FailedToReadFile.

Inductive completion (A : Type) : Type :=
  | Return (a : A)
  | Throw (e : error).
Arguments Return {A} a.
Arguments Throw {A} e.

(** ** Data model *)

Module Party.

Record party : Type := mkParty {
  name : string;
  phone : string;
  address : string
}.

End Party.

Module LineItem.

Record item : Type := mkItem {
  id : Z;
  description : string;
  quantity : Q;
  price : Q;
  total : Q
}.

End LineItem.

(** An invoice object as [saveInvoice] receives it and as [JSON.parse]
    returns it: any field may be absent. *)
Module Invoice.

Record invoiceData : Type := mkInvoiceData {
  business : option Party.party;
  client : option Party.party;
  items : option (list LineItem.item);
  taxRate : option Q;
  discount : option Q;
  subtotal : option Q;
  total : option Q;
  invoiceNumber : option string;
  issueDate : option string;
  dueDate : option string;
  savedAt : option string
}.

(** [{ ...invoiceData, savedAt: now }] *)
Definition with_savedAt (now : string) (d : invoiceData) : invoiceData :=
  {| business := business d; client := client d; items := items d;
     taxRate := taxRate d; discount := discount d; subtotal := subtotal d;
     total := total d; invoiceNumber := invoiceNumber d;
     issueDate := issueDate d; dueDate := dueDate d;
     savedAt := Some now |}.

End Invoice.

(** ** storage.js *)

Module Storage.

Import Invoice.

(** What [localStorage] holds under [STORAGE_KEY]. *)
Inductive stored : Type :=
  | Unparseable
  | Encoded (invoices : list invoiceData).

Definition localStorage : Type := option stored.

(** [invoices.findIndex(p)] and [invoices.find(p)]: the first match. *)
Definition findIndex {A} (P : A -> Prop) `{forall x, Decision (P x)}
    (l : list A) : option nat :=
  fst <$> list_find P l.

Definition find {A} (P : A -> Prop) `{forall x, Decision (P x)}
    (l : list A) : option A :=
  snd <$> list_find P l.

Definition getAllInvoices (ls : localStorage) : list invoiceData :=
  match ls with
  | None => []
  | Some (Encoded invoices) => invoices
  | Some Unparseable => []
  end.

Definition saveInvoice (now : string) (invoiceData : invoiceData)
    (ls : localStorage) : bool * localStorage :=
  let invoices := getAllInvoices ls in
  let invoiceToSave := with_savedAt now invoiceData in
  let existingIndex :=
    findIndex (fun inv => invoiceNumber inv = invoiceNumber invoiceData)
              invoices in
  let invoices' :=
    match existingIndex with
    | Some i => <[i := invoiceToSave]> invoices
    | None => invoices ++ [invoiceToSave]
    end in
  (true, Some (Encoded invoices')).

Definition getInvoice (number : option string) (ls : localStorage)
    : option invoiceData :=
  let invoices := getAllInvoices ls in
  find (fun inv => invoiceNumber inv = number) invoices.

Definition deleteInvoice (number : option string) (ls : localStorage)
    : bool * localStorage :=
  let invoices := getAllInvoices ls in
  let filtered := filter (fun inv => invoiceNumber inv <> number) invoices in
  (true, Some (Encoded filtered)).

Definition clearAllInvoices (ls : localStorage) : bool * localStorage :=
  (true, None).

(** A top-level JSON value that is not an array. *)
Inductive nonArray : Type :=
  | JsonNull
  | JsonBool (b : bool)
  | JsonNumber (q : Q)
  | JsonString (s : string)
  | JsonObject (fields : list (string * string)).

(** The outcome of [JSON.parse(e.target.result)]. *)
Inductive parsed : Type :=
  | ParseError
  | NotArray (v : nonArray)
  | ArrayOf (importedInvoices : list invoiceData).

(** The outcome of [reader.readAsText(file)]: [onerror], or [onload] with the
    text, given here by what [JSON.parse] makes of it. *)
Inductive fileRead : Type :=
  | ReadError
  | Loaded (text : parsed).

(** The body of [importedInvoices.forEach]: push an entry unless the merged
    array already has one with its number. *)
Definition merge_one (mergedInvoices : list invoiceData)
    (imported : invoiceData) : list invoiceData :=
  match findIndex (fun inv => invoiceNumber inv = invoiceNumber imported)
                  mergedInvoices with
  | None => mergedInvoices ++ [imported]
  | Some _ => mergedInvoices
  end.

Definition importInvoices (file : fileRead) (ls : localStorage)
    : completion bool * localStorage :=
  match file with
  | ReadError => (Throw FailedToReadFile, ls)
  | Loaded ParseError => (Throw SyntaxError, ls)
  | Loaded (NotArray _) => (Throw InvalidFileFormat, ls)
  | Loaded (ArrayOf importedInvoices) =>
      let existingInvoices := getAllInvoices ls in
      let mergedInvoices := foldl merge_one existingInvoices importedInvoices in
      (Return true, Some (Encoded mergedInvoices))
  end.

End Storage.

(** ** state.js *)

Module State.

Record state : Type := mkState {
  business : Party.party;
  client : Party.party;
  items : list LineItem.item;
  taxRate : Q;
  discount : Q;
  subtotal : Q;
  total : Q;
  invoiceNumber : string;
  issueDate : string;
  dueDate : string;
  nextItemId : Z
}.

(** The state the script starts with; [today] is
    [new Date().toISOString().split('T')[0]]. *)
Definition initial (today : string) : state :=
  {| business := {| Party.name := ""; Party.phone := ""; Party.address := "" |};
     client := {| Party.name := ""; Party.phone := ""; Party.address := "" |};
     items := [];
     taxRate := 0;
     discount := 0;
     subtotal := 0;
     total := 0;
     invoiceNumber := "INV-001";
     issueDate := today;
     dueDate := "";
     nextItemId := 1 |}.

(** The argument of [addItem] and the [updates] of [updateItem]: an object
    with optional [description], [quantity] and [price]. *)
Record itemFields : Type := mkItemFields {
  description : option string;
  quantity : value;
  price : value
}.

(** [s || d] on an optional string: absent and empty are falsy. *)
Definition string_or (s : option string) (d : string) : string :=
  match s with
  | Some (String c r) => String c r
  | Some EmptyString => d
  | None => d
  end.

(** [x || d] on an optional number: absent and zero are falsy. *)
Definition number_or (x : option Q) (d : Q) : Q :=
  match x with
  | Some q => if Qeq_bool q 0 then d else q
  | None => d
  end.

Definition set_items (l : list LineItem.item) (st : state) : state :=
  {| business := business st; client := client st; items := l;
     taxRate := taxRate st; discount := discount st;
     subtotal := subtotal st; total := total st;
     invoiceNumber := invoiceNumber st; issueDate := issueDate st;
     dueDate := dueDate st; nextItemId := nextItemId st |}.

Definition set_nextItemId (n : Z) (st : state) : state :=
  {| business := business st; client := client st; items := items st;
     taxRate := taxRate st; discount := discount st;
     subtotal := subtotal st; total := total st;
     invoiceNumber := invoiceNumber st; issueDate := issueDate st;
     dueDate := dueDate st; nextItemId := n |}.

Definition addItem (item : itemFields) (st : state)
    : LineItem.item * state :=
  let id := nextItemId st in
  let st1 := set_nextItemId (nearest_double (nextItemId st + 1)) st in
  let quantity := parseFloat_or (quantity item) 1 in
  let price := parseFloat_or (price item) 0 in
  let newItem :=
    {| LineItem.id := id;
       LineItem.description := string_or (description item) "";
       LineItem.quantity := quantity;
       LineItem.price := price;
       LineItem.total := times quantity price |} in
  (newItem, set_items (items st1 ++ [newItem]) st1).

(** The assignments of [updateItem] to the item it found. *)
Definition apply_updates (updates : itemFields) (item : LineItem.item)
    : LineItem.item :=
  let description :=
    match description updates with
    | Some d => d
    | None => LineItem.description item
    end in
  let quantity :=
    match quantity updates with
    | Undefined => LineItem.quantity item
    | v => parseFloat_or v 0
    end in
  let price :=
    match price updates with
    | Undefined => LineItem.price item
    | v => parseFloat_or v 0
    end in
  {| LineItem.id := LineItem.id item;
     LineItem.description := description;
     LineItem.quantity := quantity;
     LineItem.price := price;
     LineItem.total := times quantity price |}.

Definition updateItem (itemId : Z) (updates : itemFields) (st : state)
    : state :=
  match list_find (fun i => LineItem.id i = itemId) (items st) with
  | Some (k, item) => set_items (<[k := apply_updates updates item]> (items st)) st
  | None => st
  end.

Definition removeItem (itemId : Z) (st : state) : state :=
  set_items (filter (fun item => LineItem.id item <> itemId) (items st)) st.

Definition updateTaxRate (rate : value) (st : state) : state :=
  {| business := business st; client := client st; items := items st;
     taxRate := parseFloat_or rate 0; discount := discount st;
     subtotal := subtotal st; total := total st;
     invoiceNumber := invoiceNumber st; issueDate := issueDate st;
     dueDate := dueDate st; nextItemId := nextItemId st |}.

Definition updateDiscount (amount : value) (st : state) : state :=
  {| business := business st; client := client st; items := items st;
     taxRate := taxRate st; discount := parseFloat_or amount 0;
     subtotal := subtotal st; total := total st;
     invoiceNumber := invoiceNumber st; issueDate := issueDate st;
     dueDate := dueDate st; nextItemId := nextItemId st |}.

(** The number [generateInvoiceNumber] reads off one stored invoice;
    [None] when [inv.invoiceNumber] is absent, where [.match] raises. *)
Definition ordinal_of (js : engine) (inv : Invoice.invoiceData)
    : option number :=
  match Invoice.invoiceNumber inv with
  | None => None
  | Some s =>
      Some (match match_INV_digits s with
            | Some d => parseInt js d
            | None => Int 0
            end)
  end.

(** [getAllInvoices_defined] is [typeof getAllInvoices === 'function']. *)
Definition generateInvoiceNumber (js : engine) (getAllInvoices_defined : bool)
    (ls : Storage.localStorage) : completion string :=
  if getAllInvoices_defined then
    match Storage.getAllInvoices ls with
    | [] => Return "INV-001"
    | existingInvoices =>
        match mapM (ordinal_of js) existingInvoices with
        | None => Throw TypeError
        | Some numbers =>
            if (argument_limit js <? Z.of_nat (length numbers))%Z
            then Throw RangeError
            else
              let maxNumber := Math_max_of numbers in
              let nextNumber := plus_one maxNumber in
              Return ("INV-" +:+ padStart 3 "0" (String_of js nextNumber))
        end
    end
  else Return "INV-001".

Definition loadState (invoiceData : Invoice.invoiceData) (st : state)
    : state :=
  let items' := default [] (Invoice.items invoiceData) in
  {| business := default (business st) (Invoice.business invoiceData);
     client := default (client st) (Invoice.client invoiceData);
     items := items';
     taxRate := number_or (Invoice.taxRate invoiceData) 0;
     discount := number_or (Invoice.discount invoiceData) 0;
     subtotal := number_or (Invoice.subtotal invoiceData) 0;
     total := number_or (Invoice.total invoiceData) 0;
     invoiceNumber :=
       string_or (Invoice.invoiceNumber invoiceData) (invoiceNumber st);
     issueDate := string_or (Invoice.issueDate invoiceData) (issueDate st);
     dueDate := string_or (Invoice.dueDate invoiceData) (dueDate st);
     nextItemId :=
       match LineItem.id <$> items' with
       | [] => nextItemId st
       | x :: xs => nearest_double (Math_max x xs + 1)
       end |}.

(** The argument of [updateBusiness] and [updateClient]: an object with any
    of [name], [phone] and [address]. *)
Record partyData : Type := mkPartyData {
  name : option string;
  phone : option string;
  address : option string
}.

(** [{ ...party, ...data }] *)
Definition merge_party (party : Party.party) (data : partyData)
    : Party.party :=
  {| Party.name := default (Party.name party) (name data);
     Party.phone := default (Party.phone party) (phone data);
     Party.address := default (Party.address party) (address data) |}.

Definition updateBusiness (businessData : partyData) (st : state) : state :=
  {| business := merge_party (business st) businessData;
     client := client st; items := items st;
     taxRate := taxRate st; discount := discount st;
     subtotal := subtotal st; total := total st;
     invoiceNumber := invoiceNumber st; issueDate := issueDate st;
     dueDate := dueDate st; nextItemId := nextItemId st |}.

Definition updateClient (clientData : partyData) (st : state) : state :=
  {| business := business st;
     client := merge_party (client st) clientData; items := items st;
     taxRate := taxRate st; discount := discount st;
     subtotal := subtotal st; total := total st;
     invoiceNumber := invoiceNumber st; issueDate := issueDate st;
     dueDate := dueDate st; nextItemId := nextItemId st |}.

Definition blank_party : Party.party :=
  {| Party.name := ""; Party.phone := ""; Party.address := "" |}.

(** [resetState]: the assignments before [generateInvoiceNumber()] are done
    when that call raises, the later ones are not.  [today] is
    [new Date().toISOString().split('T')[0]]. *)
Definition resetState (js : engine) (getAllInvoices_defined : bool)
    (ls : Storage.localStorage) (today : string) (st : state)
    : completion unit * state :=
  match generateInvoiceNumber js getAllInvoices_defined ls with
  | Throw e =>
      (Throw e,
       {| business := blank_party; client := blank_party; items := [];
          taxRate := 0; discount := 0; subtotal := 0; total := 0;
          invoiceNumber := invoiceNumber st; issueDate := issueDate st;
          dueDate := dueDate st; nextItemId := nextItemId st |})
  | Return number =>
      (Return tt,
       {| business := blank_party; client := blank_party; items := [];
          taxRate := 0; discount := 0; subtotal := 0; total := 0;
          invoiceNumber := number; issueDate := today;
          dueDate := ""; nextItemId := 1 |})
  end.

End State.

(** ** ui.js and main.js: saving, loading and starting an invoice *)

Module UI.

Import State.

(** The object [state] as [saveInvoice(state)] receives it.  Its
    [nextItemId] is written to the store as well; no reader of the store
    uses it and the record of stored invoices has no such field. *)
Definition state_object (st : state) : Invoice.invoiceData :=
  {| Invoice.business := Some (business st);
     Invoice.client := Some (client st);
     Invoice.items := Some (items st);
     Invoice.taxRate := Some (taxRate st);
     Invoice.discount := Some (discount st);
     Invoice.subtotal := Some (subtotal st);
     Invoice.total := Some (total st);
     Invoice.invoiceNumber := Some (invoiceNumber st);
     Invoice.issueDate := Some (issueDate st);
     Invoice.dueDate := Some (dueDate st);
     Invoice.savedAt := None |}.

(** [{ description: '', quantity: 1, price: 0 }] *)
Definition blank_item : itemFields :=
  {| description := Some ""; quantity := Num 1; price := Num 0 |}.

Definition set_number_and_dates (number issue due : string) (st : state)
    : state :=
  {| business := business st; client := client st; items := items st;
     taxRate := taxRate st; discount := discount st;
     subtotal := subtotal st; total := total st;
     invoiceNumber := number; issueDate := issue; dueDate := due;
     nextItemId := nextItemId st |}.

(** The statements that start a new invoice, the same in
    [createNewInvoice] and in [handleSaveInvoice]: [resetState()], a second
    [generateInvoiceNumber()], the dates ([due] is [today] plus 14 days) and
    one blank item. *)
Definition start_new_invoice (js : engine) (getAllInvoices_defined : bool)
    (ls : Storage.localStorage) (today due : string) (st : state)
    : completion unit * state :=
  match resetState js getAllInvoices_defined ls today st with
  | (Throw e, st1) => (Throw e, st1)
  | (Return _, st1) =>
      match generateInvoiceNumber js getAllInvoices_defined ls with
      | Throw e => (Throw e, st1)
      | Return number =>
          let st2 := set_number_and_dates number today due st1 in
          (Return tt, (addItem blank_item st2).2)
      end
  end.


(** The message [handleSaveInvoice] shows first. *)
Inductive alert : Type :=
  | PleaseEnterBusinessName
  | PleaseEnterClientName
  | PleaseAddAtLeastOneItem
  | SavedSuccessfully (number : string)
  | FailedToSave.

Definition is_empty (s : string) : bool :=
  match s with
  | EmptyString => true
  | String _ _ => false
  end.

(** [handleSaveInvoice]; [createNew] is the answer to the [confirm] that
    follows a successful save. *)
Definition handleSaveInvoice (js : engine) (now today due : string)
    (createNew : bool) (getAllInvoices_defined : bool) (st : state)
    (ls : Storage.localStorage)
    : alert * completion unit * state * Storage.localStorage :=
  if is_empty (Party.name (business st)) then
    (PleaseEnterBusinessName, Return tt, st, ls)
  else if is_empty (Party.name (client st)) then
    (PleaseEnterClientName, Return tt, st, ls)
  else
    match items st with
    | [] => (PleaseAddAtLeastOneItem, Return tt, st, ls)
    | _ =>
        let (success, ls1) := Storage.saveInvoice now (state_object st) ls in
        if success then
          if createNew then
            let (done, st1) :=
              start_new_invoice js getAllInvoices_defined ls1 today due st in
            (SavedSuccessfully (invoiceNumber st), done, st1, ls1)
          else (SavedSuccessfully (invoiceNumber st), Return tt, st, ls1)
        else (FailedToSave, Return tt, st, ls1)
    end.

(** The Load button of the history: [getInvoice(invoiceId)] and, when it
    finds one, [loadState(invoice)]. *)
Definition load_from_history (invoiceId : string) (st : state)
    (ls : Storage.localStorage) : state :=
  match Storage.getInvoice (Some invoiceId) ls with
  | Some invoice => loadState invoice st
  | None => st
  end.

(** The [beforeunload] handler: [true] when it asks to confirm leaving. *)
Definition warns_before_unload (st : state) (ls : Storage.localStorage)
    : bool :=
  let hasData :=
    negb (is_empty (Party.name (business st)))
    || negb (is_empty (Party.name (client st)))
    || existsb (fun item => negb (is_empty (LineItem.description item)))
               (items st) in
  if hasData then
    match Storage.getInvoice (Some (invoiceNumber st)) ls with
    | Some _ => false
    | None => true
    end
  else false.

End UI.

(** ** Vocabulary of the statements *)

(** The invoice numbers of a collection, in order. *)
Definition numbers (l : list Invoice.invoiceData) : list (option string) :=
  Invoice.invoiceNumber <$> l.

(** What an import appends, read off the words "entries whose number already
    exists are skipped, new entries are appended": [seen] holds the numbers
    of the collection built so far. *)
Fixpoint fresh_entries (seen : list (option string))
    (imported : list Invoice.invoiceData) : list Invoice.invoiceData :=
  match imported with
  | [] => []
  | x :: rest =>
      if decide (Invoice.invoiceNumber x ∈ seen) then fresh_entries seen rest
      else x :: fresh_entries (seen ++ [Invoice.invoiceNumber x]) rest
  end.

(** A string of decimal digits. *)
Fixpoint all_digits (s : string) : bool :=
  match s with
  | EmptyString => true
  | String c s' => is_digit c && all_digits s'
  end.

(** The largest of a list of ordinals, none below zero. *)
Definition maximum (l : list Z) : Z := foldr Z.max 0%Z l.

(** The contents of [localStorage] that the program's writers produce,
    starting from an empty store. *)
Inductive reachable : Storage.localStorage -> Prop :=
  | reachable_empty : reachable None
  | reachable_save now inv ls :
      reachable ls -> reachable (Storage.saveInvoice now inv ls).2
  | reachable_delete n ls :
      reachable ls -> reachable (Storage.deleteInvoice n ls).2
  | reachable_clear ls :
      reachable ls -> reachable (Storage.clearAllInvoices ls).2
  | reachable_import file ls :
      reachable ls -> reachable (Storage.importInvoices file ls).2.

(** An invoice that carries only a number, and an item that carries only an
    identifier; used to write the examples. *)
Definition numbered (n : string) : Invoice.invoiceData :=
  {| Invoice.business := None; Invoice.client := None;
     Invoice.items := None; Invoice.taxRate := None;
     Invoice.discount := None; Invoice.subtotal := None;
     Invoice.total := None; Invoice.invoiceNumber := Some n;
     Invoice.issueDate := None; Invoice.dueDate := None;
     Invoice.savedAt := None |}.

Definition with_items (l : list LineItem.item) (d : Invoice.invoiceData)
    : Invoice.invoiceData :=
  {| Invoice.business := Invoice.business d;
     Invoice.client := Invoice.client d;
     Invoice.items := Some l; Invoice.taxRate := Invoice.taxRate d;
     Invoice.discount := Invoice.discount d;
     Invoice.subtotal := Invoice.subtotal d;
     Invoice.total := Invoice.total d;
     Invoice.invoiceNumber := Invoice.invoiceNumber d;
     Invoice.issueDate := Invoice.issueDate d;
     Invoice.dueDate := Invoice.dueDate d;
     Invoice.savedAt := Invoice.savedAt d |}.

Definition item_with_id (i : Z) : LineItem.item :=
  {| LineItem.id := i; LineItem.description := "";
     LineItem.quantity := 1; LineItem.price := 0; LineItem.total := 0 |}.

(** The identifiers of the items are pairwise distinct and all below the
    counter. *)
Definition ids_in_order (st : State.state) : Prop :=
  NoDup (LineItem.id <$> State.items st) /\
  forall i, i ∈ LineItem.id <$> State.items st -> (i < State.nextItemId st)%Z.

(** The ordinals read off the stored numbers are integers from 0 up to,
    and not including, [b]. *)
Definition ordinals_within (js : engine) (b : Z)
    (l : list Invoice.invoiceData) : Prop :=
  forall inv x, inv ∈ l -> State.ordinal_of js inv = Some x ->
    exists k, x = Int k /\ (0 <= k < b)%Z.


(** Two doubles that are the same number: equal, or both a zero. *)
Definition is_zero (x : float) : Prop := x = 0%float \/ x = (-0)%float.

Definition same_number (a b : float) : Prop :=
  a = b \/ (is_zero a /\ is_zero b).

(** An engine, to write the examples: calls of up to 65535 arguments. *)
Definition an_engine : engine :=
  {| argument_limit := 65535;
     parseInt_long := fun _ => PlusInfinity;
     String_long := fun z => decimal z |}.

(** * Properties *)

(** ** Calculations *)

Section CalculationsFacts.
Import Calculations.
Local Open Scope float_scope.

Lemma of_SF x s : Prim2SF x = s → x = SF2Prim s.
Proof. intros <-. by rewrite SF2Prim_Prim2SF. Qed.

Lemma zero_SF b x : Prim2SF x = S754_zero b → is_zero x.
Proof. intros ->%of_SF. destruct b; [right|left]; reflexivity. Qed.

Lemma nonneg_cases x : (0 <=? x) = true → is_zero x ∨ (0 <? x) = true.
Proof.
  rewrite FloatAxioms.leb_spec, FloatAxioms.ltb_spec.
  destruct (Prim2SF x) as [b|[]| |[] m e] eqn:E; cbn; try discriminate; intros _.
  - left. by eapply zero_SF.
  - by right.
  - by right.
Qed.

Lemma number_cases x : is_nan x = false → is_zero x ∨ truthy x = true.
Proof.
  unfold is_nan, truthy. rewrite FloatAxioms.eqb_spec, !FloatAxioms.ltb_spec.
  destruct (Prim2SF x) as [b|[]| |[] m e] eqn:E; cbn; try discriminate; intros _;
    try (by right).
  left. by eapply zero_SF.
Qed.

(** The value of an operation with a zero operand, read off the
    specification of the operation on [spec_float]. *)
Ltac zero_operand spec b :=
  let E := fresh "E" in
  let H := fresh "H" in
  destruct (Prim2SF b) as [[]|[]| |[] ? ?] eqn:E;
  first
    [ left; intros z [->| ->];
      match goal with |- is_zero (?op ?x ?y) =>
        pose proof (spec x y) as H; rewrite E in H;
        remember (Prim2SF (op x y)) as L eqn:EL; vm_compute in H; subst L;
        by eapply zero_SF
      end
    | right; eexists; intros z [->| ->];
      match goal with |- ?op ?x ?y = _ =>
        pose proof (spec x y) as H; rewrite E in H;
        remember (Prim2SF (op x y)) as L eqn:EL; vm_compute in H; subst L;
        apply of_SF in H; rewrite H; reflexivity
      end ].

Lemma zero_mul_l b :
  (∀ z, is_zero z → is_zero (z * b)) ∨ (∃ c, ∀ z, is_zero z → z * b = c).
Proof. zero_operand FloatAxioms.mul_spec b. Qed.

Lemma zero_mul_r a :
  (∀ z, is_zero z → is_zero (a * z)) ∨ (∃ c, ∀ z, is_zero z → a * z = c).
Proof. zero_operand FloatAxioms.mul_spec a. Qed.

Lemma zero_add_l b :
  (∀ z, is_zero z → is_zero (z + b)) ∨ (∃ c, ∀ z, is_zero z → z + b = c).
Proof. zero_operand FloatAxioms.add_spec b. Qed.

Lemma zero_add_r a :
  (∀ z, is_zero z → is_zero (a + z)) ∨ (∃ c, ∀ z, is_zero z → a + z = c).
Proof. zero_operand FloatAxioms.add_spec a. Qed.

Lemma zero_sub_l b :
  (∀ z, is_zero z → is_zero (z - b)) ∨ (∃ c, ∀ z, is_zero z → z - b = c).
Proof. zero_operand FloatAxioms.sub_spec b. Qed.

Lemma zero_sub_r a :
  (∀ z, is_zero z → is_zero (a - z)) ∨ (∃ c, ∀ z, is_zero z → a - z = c).
Proof. zero_operand FloatAxioms.sub_spec a. Qed.

Lemma same_number_refl a : same_number a a.
Proof. by left. Qed.

(** An operation gives the same number, up to the sign of a zero, on
    operands that are the same up to the sign of a zero. *)
Ltac same_operands Hl Hr :=
  intros [->|[Ha Ha']] [->|[Hb Hb']];
  [ by left
  | match goal with |- same_number (_ ?a _) _ =>
      destruct (Hr a) as [H|[c H]];
      [ right; split; by apply H | left; by rewrite !H ]
    end
  | match goal with |- same_number (_ _ ?b) _ =>
      destruct (Hl b) as [H|[c H]];
      [ right; split; by apply H | left; by rewrite !H ]
    end
  | right; destruct Ha as [->| ->], Ha' as [->| ->], Hb as [->| ->],
      Hb' as [->| ->]; split; vm_compute; auto ].

Lemma mul_same a a' b b' :
  same_number a a' → same_number b b' → same_number (a * b) (a' * b').
Proof. same_operands zero_mul_l zero_mul_r. Qed.

Lemma add_same a a' b b' :
  same_number a a' → same_number b b' → same_number (a + b) (a' + b').
Proof. same_operands zero_add_l zero_add_r. Qed.

Lemma sub_same a a' b b' :
  same_number a a' → same_number b b' → same_number (a - b) (a' - b').
Proof. same_operands zero_sub_l zero_sub_r. Qed.

Lemma div_100_same a a' : same_number a a' → same_number (a / 100) (a' / 100).
Proof.
  intros [->|[Ha Ha']]; [by left|]. right.
  destruct Ha as [->| ->], Ha' as [->| ->]; split; vm_compute; auto.
Qed.

Lemma Math_max2_0_same a a' :
  same_number a a' → Math_max2 0 a = Math_max2 0 a'.
Proof.
  intros [->|[Ha Ha']]; [done|].
  by destruct Ha as [->| ->], Ha' as [->| ->].
Qed.

Lemma positive_not_negative x : (0 <? x) = true → (x <? 0) = false.
Proof.
  rewrite !FloatAxioms.ltb_spec. unfold SFltb.
  destruct (Prim2SF x) as [[]|[]| |[] m e]; cbn; try discriminate; reflexivity.
Qed.

Lemma Math_max2_0_not_negative t : (Math_max2 0 t <? 0) = false.
Proof.
  unfold Math_max2.
  change (is_nan 0) with false. change (is_negative_zero 0) with false.
  cbn [orb andb]. destruct (is_nan t); [reflexivity|].
  destruct (0 <? t) eqn:E; [by apply positive_not_negative|reflexivity].
Qed.

Lemma parseFloat_or_zero_twice x :
  parseFloat_or_zero (parseFloat_or_zero x) = parseFloat_or_zero x.
Proof.
  unfold parseFloat_or_zero. destruct (truthy x) eqn:E; [by rewrite E|done].
Qed.

Lemma parseFloat_or_zero_number x :
  is_nan x = false → same_number (parseFloat_or_zero x) x.
Proof.
  intros [Hz|Ht]%number_cases; unfold parseFloat_or_zero.
  - right. destruct Hz as [->| ->]; split; vm_compute; auto.
  - rewrite Ht. by left.
Qed.

Lemma parseFloat_or_zero_nonnegative x :
  (0 <=? x) = true → same_number (parseFloat_or_zero x) x.
Proof.
  intros [Hz|Hp]%nonneg_cases; unfold parseFloat_or_zero.
  - right. destruct Hz as [->| ->]; split; vm_compute; auto.
  - unfold truthy. rewrite Hp, orb_true_r. by left.
Qed.

(** C1. For every subtotal >= 0, rate >= 0 and discount (numbers, so not
    [NaN]), the [total] field of [calculateTotal] is
    [Math.max(0, subtotal + subtotal*rate/100 - discount)] in the arithmetic
    of the doubles, so it is never negative; and [calculateTotal(100, 10, 5)]
    is [{subtotal: 100, tax: 10, discount: 5, total: 105}]. *)
Theorem calculateTotal_total (subtotal rate discount : float) :
  (0 <=? subtotal) = true → (0 <=? rate) = true → is_nan discount = false →
  let r := calculateTotal subtotal rate discount in
  total r = Math_max2 0 (subtotal + subtotal * rate / 100 - discount) ∧
  (total r <? 0) = false ∧
  calculateTotal 100 10 5
    = {| Calculations.subtotal := 100; tax := 10;
         Calculations.discount := 5; total := 105 |}.
Proof.
  intros Hs%parseFloat_or_zero_nonnegative Hr%parseFloat_or_zero_nonnegative
         Hd%parseFloat_or_zero_number.
  cbn zeta. split_and!.
  - unfold calculateTotal, calculateTax; cbn [total].
    rewrite parseFloat_or_zero_twice.
    apply Math_max2_0_same, sub_same; [|done].
    apply add_same; [done|]. by apply div_100_same, mul_same.
  - apply Math_max2_0_not_negative.
  - vm_compute. reflexivity.
Qed.

Lemma calculateTotal_total_witness :
  (0 <=? 10) = true ∧ (0 <=? 0) = true ∧ is_nan 1000 = false ∧
  total (calculateTotal 10 0 1000) = 0 ∧
  (total (calculateTotal 10 0 1000) <? 0) = false.
Proof.
  split_and!; [reflexivity..| |].
  - destruct (calculateTotal_total 10 0 1000) as [H _]; [reflexivity..|].
    cbn zeta in H. rewrite H. reflexivity.
  - by destruct (calculateTotal_total 10 0 1000) as (_ & H & _).
Defined.

(** The arithmetic is that of the doubles: with a subtotal of 3, a rate of
    10 and a discount of 3 the total is not the double nearest to 0.3, which
    the tax alone is. *)
Example calculateTotal_rounds :
  total (calculateTotal 3 10 3) = 0x1.3333333333330p-2 ∧
  tax (calculateTotal 3 10 3) = 0x1.3333333333333p-2.
Proof. split; vm_compute; reflexivity. Qed.

End CalculationsFacts.

(** ** Persistence *)

Section StorageFacts.
Import Invoice Storage.

Implicit Types (l : list invoiceData) (ls : localStorage)
  (n : option string) (inv : invoiceData).

Lemma invoiceNumber_with_savedAt now inv :
  invoiceNumber (with_savedAt now inv) = invoiceNumber inv.
Proof. reflexivity. Qed.

Lemma find_None_iff l n :
  list_find (λ x, invoiceNumber x = n) l = None ↔ n ∉ numbers l.
Proof.
  rewrite list_find_None, Forall_forall. unfold numbers.
  rewrite list_elem_of_fmap. split.
  - intros H (x & -> & Hx). by apply (H x).
  - intros H x Hx E. apply H. exists x. by rewrite E.
Qed.

(** The collection [saveInvoice] writes. *)
Lemma saveInvoice_found now inv ls i old :
  list_find (λ x, invoiceNumber x = invoiceNumber inv) (getAllInvoices ls)
    = Some (i, old) →
  saveInvoice now inv ls
    = (true, Some (Encoded (<[i := with_savedAt now inv]> (getAllInvoices ls)))).
Proof. intros H. unfold saveInvoice, findIndex. by rewrite H. Qed.

Lemma saveInvoice_fresh now inv ls :
  invoiceNumber inv ∉ numbers (getAllInvoices ls) →
  saveInvoice now inv ls
    = (true, Some (Encoded (getAllInvoices ls ++ [with_savedAt now inv]))).
Proof.
  intros H%find_None_iff. unfold saveInvoice, findIndex. by rewrite H.
Qed.

Lemma list_find_insert_hit l i old new n :
  list_find (λ x, invoiceNumber x = n) l = Some (i, old) →
  invoiceNumber new = n →
  list_find (λ x, invoiceNumber x = n) (<[i := new]> l) = Some (i, new).
Proof.
  intros (Hi & _ & Hleast)%list_find_Some Hnew.
  apply list_find_Some. split_and!.
  - apply list_lookup_insert_eq. by eapply lookup_lt_Some.
  - done.
  - intros j y Hj Hlt. rewrite list_lookup_insert_ne in Hj by lia.
    by eapply Hleast.
Qed.

Lemma list_find_snoc_fresh l new n :
  n ∉ numbers l → invoiceNumber new = n →
  list_find (λ x, invoiceNumber x = n) (l ++ [new]) = Some (length l, new).
Proof.
  intros H%find_None_iff Hnew. rewrite list_find_app_r by done.
  simpl. rewrite decide_True by done. reflexivity.
Qed.

Lemma getInvoice_saveInvoice now inv ls :
  getInvoice (invoiceNumber inv) (saveInvoice now inv ls).2
    = Some (with_savedAt now inv).
Proof.
  unfold getInvoice, find.
  destruct (list_find (λ x, invoiceNumber x = invoiceNumber inv)
              (getAllInvoices ls)) as [[i old]|] eqn:E.
  - rewrite (saveInvoice_found _ _ _ _ _ E). cbn [snd getAllInvoices].
    by erewrite list_find_insert_hit.
  - apply find_None_iff in E. rewrite saveInvoice_fresh by done.
    cbn [snd getAllInvoices]. by rewrite list_find_snoc_fresh.
Qed.

Lemma saveInvoice_length_present now inv ls :
  invoiceNumber inv ∈ numbers (getAllInvoices ls) →
  length (getAllInvoices (saveInvoice now inv ls).2)
    = length (getAllInvoices ls).
Proof.
  intros Hin.
  destruct (list_find (λ x, invoiceNumber x = invoiceNumber inv)
              (getAllInvoices ls)) as [[i old]|] eqn:E.
  - rewrite (saveInvoice_found _ _ _ _ _ E). cbn [snd getAllInvoices].
    apply length_insert.
  - apply find_None_iff in E. done.
Qed.



(** ** deleteInvoice *)

Lemma getAllInvoices_deleteInvoice n ls :
  getAllInvoices (deleteInvoice n ls).2
    = filter (λ x, invoiceNumber x ≠ n) (getAllInvoices ls).
Proof. reflexivity. Qed.

Lemma filter_absent l n :
  n ∉ numbers l → filter (λ x, invoiceNumber x ≠ n) l = l.
Proof.
  induction l as [|x l IH]; [done|].
  unfold numbers. rewrite fmap_cons, not_elem_of_cons. intros [Hx Hl].
  rewrite filter_cons_True by congruence. f_equal. by apply IH.
Qed.

Lemma filter_present_unique l n :
  NoDup (numbers l) → n ∈ numbers l →
  S (length (filter (λ x, invoiceNumber x ≠ n) l)) = length l.
Proof.
  induction l as [|x l IH]; unfold numbers.
  - intros _ Hin. by apply elem_of_nil in Hin.
  - rewrite fmap_cons, NoDup_cons, elem_of_cons. intros [Hx Hnd] Hin.
    destruct (decide (invoiceNumber x = n)) as [E|E].
    + rewrite filter_cons_False by (intros H; by apply H).
      rewrite filter_absent by (by rewrite <- E). done.
    + rewrite filter_cons_True by done. cbn [length]. f_equal.
      apply IH; [done|]. destruct Hin as [Hin|Hin]; [congruence|done].
Qed.

Lemma getInvoice_None_iff n ls :
  getInvoice n ls = None ↔ n ∉ numbers (getAllInvoices ls).
Proof.
  unfold getInvoice, find. rewrite <- find_None_iff.
  destruct (list_find _ _); simpl; split; congruence.
Qed.

Lemma numbers_filter_absent l n :
  n ∉ numbers (filter (λ x, invoiceNumber x ≠ n) l).
Proof.
  unfold numbers. rewrite list_elem_of_fmap.
  intros (x & -> & [Hx _]%list_elem_of_filter). by apply Hx.
Qed.

Lemma getInvoice_deleteInvoice n ls :
  getInvoice n (deleteInvoice n ls).2 = None.
Proof.
  apply getInvoice_None_iff. rewrite getAllInvoices_deleteInvoice.
  apply numbers_filter_absent.
Qed.



(** ** importInvoices *)

Lemma merge_one_seen l x :
  invoiceNumber x ∈ numbers l → merge_one l x = l.
Proof.
  intros Hin. unfold merge_one, findIndex.
  destruct (list_find _ l) as [[i y]|] eqn:E; [done|].
  by apply find_None_iff in E.
Qed.

Lemma merge_one_fresh l x :
  invoiceNumber x ∉ numbers l → merge_one l x = l ++ [x].
Proof.
  intros H%find_None_iff. unfold merge_one, findIndex. by rewrite H.
Qed.

Lemma foldl_merge_one imported : ∀ l,
  foldl merge_one l imported = l ++ fresh_entries (numbers l) imported.
Proof.
  induction imported as [|x rest IH]; intros l; cbn [foldl fresh_entries].
  - by rewrite app_nil_r.
  - destruct (decide (invoiceNumber x ∈ numbers l)) as [Hin|Hout].
    + rewrite merge_one_seen by done. apply IH.
    + rewrite merge_one_fresh by done. rewrite IH.
      unfold numbers. rewrite fmap_app. cbn [fmap list_fmap].
      by rewrite <- app_assoc.
Qed.

Lemma fresh_entries_sublist imported : ∀ seen,
  fresh_entries seen imported `sublist_of` imported.
Proof.
  induction imported as [|x rest IH]; intros seen; cbn [fresh_entries].
  - done.
  - destruct (decide _).
    + apply sublist_cons, IH.
    + apply sublist_skip, IH.
Qed.

Lemma fresh_entries_unseen imported : ∀ seen y,
  y ∈ fresh_entries seen imported → invoiceNumber y ∉ seen.
Proof.
  induction imported as [|x rest IH]; intros seen y; cbn [fresh_entries].
  - by intros ?%elem_of_nil.
  - destruct (decide _) as [Hin|Hout]; [by apply IH|].
    intros [->|Hy]%elem_of_cons; [done|].
    apply IH in Hy. intros Hs. apply Hy, elem_of_app. by left.
Qed.

Lemma fresh_entries_covers imported : ∀ seen x,
  x ∈ imported → invoiceNumber x ∉ seen →
  invoiceNumber x ∈ numbers (fresh_entries seen imported).
Proof.
  induction imported as [|z rest IH]; intros seen x; cbn [fresh_entries].
  - by intros ?%elem_of_nil.
  - intros [->|Hx]%elem_of_cons Hout.
    + rewrite decide_False by done. unfold numbers. rewrite fmap_cons.
      apply elem_of_cons. by left.
    + destruct (decide (invoiceNumber z ∈ seen)) as [Hz|Hz]; [by apply IH|].
      unfold numbers. rewrite fmap_cons. apply elem_of_cons.
      destruct (decide (invoiceNumber x = invoiceNumber z)) as [E|E];
        [by left|right].
      apply IH; [done|]. rewrite elem_of_app, list_elem_of_singleton.
      intros [?|?]; done.
Qed.

Lemma filter_number_none l n :
  n ∉ numbers l → filter (λ y, invoiceNumber y = n) l = [].
Proof.
  induction l as [|x l IH]; [done|].
  unfold numbers. rewrite fmap_cons, not_elem_of_cons. intros [Hx Hl].
  rewrite filter_cons_False by congruence. by apply IH.
Qed.

Lemma fresh_entries_numbers_unseen imported seen n :
  n ∈ seen → n ∉ numbers (fresh_entries seen imported).
Proof.
  intros Hs (y & -> & Hy)%list_elem_of_fmap.
  by apply fresh_entries_unseen in Hy.
Qed.

Lemma fresh_entries_first imported : ∀ seen n i x,
  n ∉ seen →
  list_find (λ y, invoiceNumber y = n) imported = Some (i, x) →
  filter (λ y, invoiceNumber y = n) (fresh_entries seen imported) = [x].
Proof.
  induction imported as [|z rest IH]; intros seen n i x Hout;
    cbn [fresh_entries list_find]; [done|].
  destruct (decide (invoiceNumber z = n)) as [E|E].
  - intros [= <- <-]. rewrite decide_False by (by rewrite E).
    rewrite filter_cons_True by done. f_equal.
    apply filter_number_none, fresh_entries_numbers_unseen.
    rewrite E. apply elem_of_app. right. by apply list_elem_of_singleton.
  - destruct (list_find _ rest) as [[j y]|] eqn:F; [|done].
    intros [= <- <-].
    destruct (decide (invoiceNumber z ∈ seen)) as [Hz|Hz].
    + by eapply IH.
    + rewrite filter_cons_False by done. eapply IH; [|done].
      rewrite elem_of_app, list_elem_of_singleton. intros [?|?]; done.
Qed.

Lemma filter_unseen_snoc l seen n :
  n ∉ numbers l →
  filter (λ x, invoiceNumber x ∉ seen ++ [n]) l
    = filter (λ x, invoiceNumber x ∉ seen) l.
Proof.
  induction l as [|x l IH]; [done|].
  unfold numbers. rewrite fmap_cons, not_elem_of_cons. intros [Hx Hl].
  rewrite !filter_cons, IH by done.
  destruct (decide (invoiceNumber x ∉ seen ++ [n])) as [H1|H1];
    destruct (decide (invoiceNumber x ∉ seen)) as [H2|H2]; try done.
  - exfalso. apply H1. apply dec_stable in H2. apply elem_of_app. by left.
  - exfalso. apply H1. rewrite elem_of_app, list_elem_of_singleton.
    intros [?|?]; congruence.
Qed.

Lemma fresh_entries_NoDup imported : ∀ seen,
  NoDup (numbers imported) →
  fresh_entries seen imported
    = filter (λ x, invoiceNumber x ∉ seen) imported.
Proof.
  induction imported as [|z rest IH]; intros seen; [done|].
  unfold numbers. rewrite fmap_cons, NoDup_cons. intros [Hz Hnd].
  cbn [fresh_entries].
  destruct (decide (invoiceNumber z ∈ seen)) as [Hs|Hs].
  - rewrite filter_cons_False by (intros H; by apply H). by apply IH.
  - rewrite filter_cons_True by done. f_equal. rewrite IH by done.
    by apply filter_unseen_snoc.
Qed.

(** Uniqueness of the stored numbers is kept by every writer. *)

Lemma fresh_entries_unique imported : ∀ seen,
  NoDup seen → NoDup (seen ++ numbers (fresh_entries seen imported)).
Proof.
  induction imported as [|z rest IH]; intros seen Hnd; cbn [fresh_entries].
  - by rewrite app_nil_r.
  - destruct (decide (invoiceNumber z ∈ seen)) as [Hs|Hs]; [by apply IH|].
    unfold numbers. rewrite fmap_cons.
    change (?a :: ?l) with ([a] ++ l). rewrite app_assoc. apply IH.
    apply NoDup_app. split_and!; [done| |apply NoDup_singleton].
    intros x Hx ->%list_elem_of_singleton. done.
Qed.

Lemma unique_saveInvoice now inv ls :
  NoDup (numbers (getAllInvoices ls)) →
  NoDup (numbers (getAllInvoices (saveInvoice now inv ls).2)).
Proof.
  intros Hnd.
  destruct (list_find (λ x, invoiceNumber x = invoiceNumber inv)
              (getAllInvoices ls)) as [[i old]|] eqn:E.
  - rewrite (saveInvoice_found _ _ _ _ _ E). cbn [snd getAllInvoices].
    unfold numbers. rewrite list_fmap_insert, list_insert_id; [done|].
    apply list_find_Some in E as (Hi & Ho & _).
    rewrite list_lookup_fmap, Hi. simpl. by rewrite Ho.
  - apply find_None_iff in E. rewrite saveInvoice_fresh by done.
    cbn [snd getAllInvoices]. unfold numbers. rewrite fmap_app.
    apply NoDup_app. split_and!; [done| |apply NoDup_singleton].
    intros x Hx ->%list_elem_of_singleton. done.
Qed.

Lemma unique_deleteInvoice n ls :
  NoDup (numbers (getAllInvoices ls)) →
  NoDup (numbers (getAllInvoices (deleteInvoice n ls).2)).
Proof.
  rewrite getAllInvoices_deleteInvoice. intros Hnd.
  eapply sublist_NoDup; [exact Hnd|].
  unfold numbers. apply fmap_sublist, sublist_filter.
Qed.

Lemma getAllInvoices_importInvoices imported ls :
  getAllInvoices (importInvoices (Loaded (ArrayOf imported)) ls).2
    = getAllInvoices ls
      ++ fresh_entries (numbers (getAllInvoices ls)) imported.
Proof. cbn. apply foldl_merge_one. Qed.

Lemma unique_importInvoices file ls :
  NoDup (numbers (getAllInvoices ls)) →
  NoDup (numbers (getAllInvoices (importInvoices file ls).2)).
Proof.
  intros Hnd. destruct file as [|[| |imported]]; try done.
  rewrite getAllInvoices_importInvoices. unfold numbers at 1.
  rewrite fmap_app. by apply fresh_entries_unique.
Qed.

(** Every store the program builds holds each invoice number once. *)
Lemma reachable_unique ls :
  reachable ls → NoDup (numbers (getAllInvoices ls)).
Proof.
  induction 1 as [|now inv ls _ IH|n ls _ IH|ls _ IH|file ls _ IH].
  - apply NoDup_nil_2.
  - by apply unique_saveInvoice.
  - by apply unique_deleteInvoice.
  - apply NoDup_nil_2.
  - by apply unique_importInvoices.
Qed.

(** *** Save and read back *)

(** C2. [saveInvoice(invoice)] followed by [getInvoice(invoice.invoiceNumber)]
    returns a record that has every field of the saved invoice as the
    invoice has it, and the time of the save as [savedAt]; saving an invoice
    whose number is already stored replaces the entry instead of appending,
    so the length of [getAllInvoices()] does not change, however often the
    same number is saved again. *)
Theorem saveInvoice_getInvoice_roundtrip now inv ls :
  let ls' := (saveInvoice now inv ls).2 in
  (∃ r, getInvoice (invoiceNumber inv) ls' = Some r ∧
        savedAt r = Some now ∧
        business r = business inv ∧ client r = client inv ∧
        items r = items inv ∧ taxRate r = taxRate inv ∧
        discount r = discount inv ∧ subtotal r = subtotal inv ∧
        total r = total inv ∧ invoiceNumber r = invoiceNumber inv ∧
        issueDate r = issueDate inv ∧ dueDate r = dueDate inv) ∧
  (invoiceNumber inv ∈ numbers (getAllInvoices ls) →
     length (getAllInvoices ls') = length (getAllInvoices ls)) ∧
  (∀ now2 inv2, invoiceNumber inv2 = invoiceNumber inv →
     length (getAllInvoices (saveInvoice now2 inv2 ls').2)
       = length (getAllInvoices ls')).
Proof.
  cbn zeta. split_and!.
  - exists (with_savedAt now inv). split; [apply getInvoice_saveInvoice|].
    by split_and!.
  - apply saveInvoice_length_present.
  - intros now2 inv2 E. apply saveInvoice_length_present.
    rewrite E. destruct (decide (invoiceNumber inv
      ∈ numbers (getAllInvoices (saveInvoice now inv ls).2))) as [|Hout];
      [done|].
    apply getInvoice_None_iff in Hout.
    by rewrite getInvoice_saveInvoice in Hout.
Qed.

Lemma saveInvoice_getInvoice_roundtrip_witness :
  let stored := Some (Encoded [numbered "INV-001"; numbered "INV-002"]) in
  let inv := with_items [item_with_id 1] (numbered "INV-002") in
  let ls' := (saveInvoice "2024-05-01T10:00:00.000Z" inv stored).2 in
  (∃ r, getInvoice (Some "INV-002") ls' = Some r ∧
        savedAt r = Some "2024-05-01T10:00:00.000Z" ∧
        items r = Some [item_with_id 1] ∧
        invoiceNumber r = Some "INV-002") ∧
  length (getAllInvoices ls') = 2.
Proof.
  cbn zeta.
  destruct (saveInvoice_getInvoice_roundtrip "2024-05-01T10:00:00.000Z"
              (with_items [item_with_id 1] (numbered "INV-002"))
              (Some (Encoded [numbered "INV-001"; numbered "INV-002"])))
    as ((r & Hget & Hat & _ & _ & Hitems & _ & _ & _ & _ & Hnum & _)
        & Hlen & _).
  split; [by exists r|]. rewrite Hlen; [reflexivity|]. compute_done.
Defined.

(** *** Delete *)

(** On a collection that holds each number once, [deleteInvoice] of a number
    that is not stored changes nothing, and [deleteInvoice] of a stored
    number removes exactly one entry. *)
Lemma deleteInvoice_unique n ls :
  NoDup (numbers (getAllInvoices ls)) →
  let ls' := (deleteInvoice n ls).2 in
  (n ∉ numbers (getAllInvoices ls) →
     getAllInvoices ls' = getAllInvoices ls) ∧
  (n ∈ numbers (getAllInvoices ls) →
     S (length (getAllInvoices ls')) = length (getAllInvoices ls) ∧
     getInvoice n ls' = None).
Proof.
  intros Hnd. cbn zeta. rewrite getAllInvoices_deleteInvoice. split.
  - apply filter_absent.
  - intros Hin. split; [by apply filter_present_unique|].
    apply getInvoice_deleteInvoice.
Qed.

(** C7. For every invoice number, [deleteInvoice] of a number that is not
    stored leaves [getAllInvoices()] unchanged, and [deleteInvoice] of a
    stored number makes a following [getInvoice] of that number return
    [null] and, on every collection the program has built, makes
    [getAllInvoices()] shorter by exactly one. *)
Theorem deleteInvoice_absent_present n ls :
  let ls' := (deleteInvoice n ls).2 in
  (n ∉ numbers (getAllInvoices ls) →
     getAllInvoices ls' = getAllInvoices ls) ∧
  getInvoice n ls' = None ∧
  (reachable ls → n ∈ numbers (getAllInvoices ls) →
     S (length (getAllInvoices ls')) = length (getAllInvoices ls)).
Proof.
  cbn zeta. split_and!.
  - rewrite getAllInvoices_deleteInvoice. apply filter_absent.
  - apply getInvoice_deleteInvoice.
  - intros Hnd%reachable_unique Hin.
    by apply (deleteInvoice_unique n ls Hnd).
Qed.

Lemma deleteInvoice_absent_present_witness :
  let t := "2024-05-01T10:00:00.000Z" in
  let stored :=
    (saveInvoice t (numbered "INV-002")
       (saveInvoice t (numbered "INV-001") None).2).2 in
  reachable stored ∧
  (Some "INV-009" ∉ numbers (getAllInvoices stored)) ∧
  (Some "INV-001" ∈ numbers (getAllInvoices stored)) ∧
  getAllInvoices (deleteInvoice (Some "INV-009") stored).2
    = getAllInvoices stored ∧
  S (length (getAllInvoices (deleteInvoice (Some "INV-001") stored).2)) = 2 ∧
  getInvoice (Some "INV-001") (deleteInvoice (Some "INV-001") stored).2 = None.
Proof.
  cbn zeta.
  assert (reachable
            (saveInvoice "2024-05-01T10:00:00.000Z" (numbered "INV-002")
               (saveInvoice "2024-05-01T10:00:00.000Z" (numbered "INV-001")
                  None).2).2)
    as Hr by (do 2 apply reachable_save; apply reachable_empty).
  split; [exact Hr|]. split; [compute_done|]. split; [compute_done|].
  destruct (deleteInvoice_absent_present (Some "INV-009")
              (saveInvoice "2024-05-01T10:00:00.000Z" (numbered "INV-002")
                 (saveInvoice "2024-05-01T10:00:00.000Z" (numbered "INV-001")
                    None).2).2) as (Ha & _ & _).
  destruct (deleteInvoice_absent_present (Some "INV-001")
              (saveInvoice "2024-05-01T10:00:00.000Z" (numbered "INV-002")
                 (saveInvoice "2024-05-01T10:00:00.000Z" (numbered "INV-001")
                    None).2).2) as (_ & Hget & Hlen).
  split_and!; [apply Ha; compute_done|apply Hlen; [exact Hr|compute_done]|
               exact Hget].
Defined.

(** A collection written by other means, with one number twice, loses both
    entries: the count of one rests on the uniqueness the writers keep. *)
Remark deleteInvoice_every_match :
  let other :=
    Some (Encoded [with_savedAt "a" (numbered "INV-001");
                   with_savedAt "b" (numbered "INV-001")]) in
  getAllInvoices (deleteInvoice (Some "INV-001") other).2 = [] ∧
  ¬ reachable other.
Proof.
  cbn zeta. split; [reflexivity|].
  intros Hnd%reachable_unique. cbn in Hnd.
  apply NoDup_cons in Hnd as [Hnd _]. apply Hnd. by left.
Qed.

(** *** Order of the stored collection *)

(** C9. [saveInvoice] of an invoice whose number is already stored replaces
    the entry at the position it has, and leaves every other entry and the
    order of the collection as they were; [deleteInvoice] keeps the remaining
    entries in their order. *)
Theorem saveInvoice_deleteInvoice_order now inv n ls :
  (invoiceNumber inv ∈ numbers (getAllInvoices ls) →
   ∃ i old,
     getAllInvoices ls !! i = Some old ∧
     invoiceNumber old = invoiceNumber inv ∧
     getAllInvoices (saveInvoice now inv ls).2 !! i
       = Some (with_savedAt now inv) ∧
     (∀ j, j ≠ i →
        getAllInvoices (saveInvoice now inv ls).2 !! j
          = getAllInvoices ls !! j) ∧
     length (getAllInvoices (saveInvoice now inv ls).2)
       = length (getAllInvoices ls) ∧
     numbers (getAllInvoices (saveInvoice now inv ls).2)
       = numbers (getAllInvoices ls)) ∧
  getAllInvoices (deleteInvoice n ls).2
    = filter (λ x, invoiceNumber x ≠ n) (getAllInvoices ls) ∧
  getAllInvoices (deleteInvoice n ls).2 `sublist_of` getAllInvoices ls ∧
  (∀ x, x ∈ getAllInvoices (deleteInvoice n ls).2
        ↔ x ∈ getAllInvoices ls ∧ invoiceNumber x ≠ n).
Proof.
  split_and!.
  - intros Hin.
    destruct (list_find (λ x, invoiceNumber x = invoiceNumber inv)
                (getAllInvoices ls)) as [[i old]|] eqn:E;
      [|by apply find_None_iff in E].
    exists i, old. rewrite (saveInvoice_found _ _ _ _ _ E).
    cbn [snd getAllInvoices].
    apply list_find_Some in E as (Hi & Ho & _).
    split_and!; [done|done| | | |].
    + apply list_lookup_insert_eq. by eapply lookup_lt_Some.
    + intros j Hj. by apply list_lookup_insert_ne.
    + apply length_insert.
    + unfold numbers. rewrite list_fmap_insert. apply list_insert_id.
      rewrite list_lookup_fmap, Hi. simpl. by rewrite Ho.
  - apply getAllInvoices_deleteInvoice.
  - rewrite getAllInvoices_deleteInvoice. apply sublist_filter.
  - intros x. rewrite getAllInvoices_deleteInvoice, list_elem_of_filter.
    tauto.
Qed.

Lemma saveInvoice_deleteInvoice_order_witness :
  let stored :=
    Some (Encoded [numbered "INV-001"; numbered "INV-002";
                   numbered "INV-003"]) in
  (invoiceNumber (numbered "INV-002") ∈ numbers (getAllInvoices stored)) ∧
  numbers (getAllInvoices (saveInvoice "t" (numbered "INV-002") stored).2)
    = numbers (getAllInvoices stored) ∧
  getAllInvoices (deleteInvoice (Some "INV-002") stored).2
    = [numbered "INV-001"; numbered "INV-003"].
Proof.
  cbn zeta.
  assert (invoiceNumber (numbered "INV-002")
            ∈ numbers (getAllInvoices
                (Some (Encoded [numbered "INV-001"; numbered "INV-002";
                                numbered "INV-003"]))))
    as Hin by compute_done.
  destruct (saveInvoice_deleteInvoice_order "t" (numbered "INV-002")
              (Some "INV-002")
              (Some (Encoded [numbered "INV-001"; numbered "INV-002";
                              numbered "INV-003"])))
    as (Hsave & Hdel & _).
  destruct (Hsave Hin) as (i & old & _ & _ & _ & _ & _ & Hnum).
  split_and!; [exact Hin|exact Hnum|]. rewrite Hdel. reflexivity.
Defined.

(** *** Import *)

Lemma list_find_first (pre post : list invoiceData) x :
  invoiceNumber x ∉ numbers pre →
  list_find (λ y, invoiceNumber y = invoiceNumber x) (pre ++ x :: post)
    = Some (length pre, x).
Proof.
  intros H%find_None_iff. rewrite list_find_app_r by done.
  cbn [list_find]. rewrite decide_True by done. reflexivity.
Qed.

(** C6. [importInvoices] fails with the format error when the parsed contents
    are not an array, as for [{"not": "an array"}], and then leaves the
    stored collection as it was; when they are an array it keeps the stored
    collection and appends imported entries after it: none whose number is
    already stored, and one for every imported number that is not. *)
Theorem importInvoices_format_and_merge v imported ls :
  importInvoices (Loaded (NotArray v)) ls = (Throw InvalidFileFormat, ls) ∧
  importInvoices (Loaded (NotArray (JsonObject [("not", "an array")]))) ls
    = (Throw InvalidFileFormat, ls) ∧
  ∃ appended,
    importInvoices (Loaded (ArrayOf imported)) ls
      = (Return true, Some (Encoded (getAllInvoices ls ++ appended))) ∧
    appended `sublist_of` imported ∧
    (∀ y, y ∈ appended → invoiceNumber y ∉ numbers (getAllInvoices ls)) ∧
    (∀ x, x ∈ imported → invoiceNumber x ∉ numbers (getAllInvoices ls) →
          invoiceNumber x ∈ numbers appended) ∧
    (NoDup (numbers imported) →
       appended = filter (λ x, invoiceNumber x ∉ numbers (getAllInvoices ls))
                         imported).
Proof.
  split_and!; [done..|].
  exists (fresh_entries (numbers (getAllInvoices ls)) imported). split_and!.
  - cbn. by rewrite foldl_merge_one.
  - apply fresh_entries_sublist.
  - intros y. apply fresh_entries_unseen.
  - intros x. apply fresh_entries_covers.
  - apply fresh_entries_NoDup.
Qed.

Lemma importInvoices_format_and_merge_witness :
  let stored := Some (Encoded [with_savedAt "t" (numbered "INV-001")]) in
  importInvoices (Loaded (NotArray JsonNull)) stored
    = (Throw InvalidFileFormat, stored) ∧
  importInvoices
    (Loaded (ArrayOf [numbered "INV-001"; numbered "INV-002"])) stored
    = (Return true,
       Some (Encoded [with_savedAt "t" (numbered "INV-001");
                      numbered "INV-002"])).
Proof.
  cbn zeta.
  destruct (importInvoices_format_and_merge JsonNull
              [numbered "INV-001"; numbered "INV-002"]
              (Some (Encoded [with_savedAt "t" (numbered "INV-001")])))
    as (Hfail & _ & appended & Hok & _ & _ & _ & Hexact).
  split; [exact Hfail|].
  rewrite Hok, Hexact by compute_done. reflexivity.
Defined.

(** C10. When the imported array holds several entries with one number that
    is not stored, [importInvoices] appends the first of them and skips the
    later ones: the merged collection has that entry and no other with its
    number. *)
Theorem importInvoices_duplicates_in_file pre x post ls :
  invoiceNumber x ∉ numbers (getAllInvoices ls) →
  invoiceNumber x ∉ numbers pre →
  let merged :=
    getAllInvoices
      (importInvoices (Loaded (ArrayOf (pre ++ x :: post))) ls).2 in
  filter (λ y, invoiceNumber y = invoiceNumber x) merged = [x] ∧
  (∀ y, y ∈ merged → invoiceNumber y = invoiceNumber x → y = x).
Proof.
  intros Hls Hpre. cbn zeta. rewrite getAllInvoices_importInvoices.
  assert (filter (λ y, invoiceNumber y = invoiceNumber x)
            (getAllInvoices ls
             ++ fresh_entries (numbers (getAllInvoices ls))
                  (pre ++ x :: post)) = [x]) as Hf.
  { rewrite filter_app, filter_number_none by done.
    eapply fresh_entries_first; [done|]. by apply list_find_first. }
  split; [exact Hf|].
  intros y Hy E.
  assert (y ∈ [x]) as Hyx by (rewrite <- Hf; by apply list_elem_of_filter).
  by apply list_elem_of_singleton in Hyx.
Qed.

Lemma importInvoices_duplicates_in_file_witness :
  let first := with_savedAt "first" (numbered "INV-005") in
  let later := with_savedAt "later" (numbered "INV-005") in
  let stored := Some (Encoded [numbered "INV-001"]) in
  (invoiceNumber first ∉ numbers (getAllInvoices stored)) ∧
  (invoiceNumber first ∉ numbers [numbered "INV-002"]) ∧
  filter (λ y, invoiceNumber y = invoiceNumber first)
    (getAllInvoices
       (importInvoices
          (Loaded (ArrayOf ([numbered "INV-002"] ++ first :: [later; later])))
          stored).2)
    = [first].
Proof.
  cbn zeta. split_and!; [compute_done..|].
  apply (importInvoices_duplicates_in_file [numbered "INV-002"]
           (with_savedAt "first" (numbered "INV-005"))
           [with_savedAt "later" (numbered "INV-005");
            with_savedAt "later" (numbered "INV-005")]
           (Some (Encoded [numbered "INV-001"]))); compute_done.
Defined.

End StorageFacts.

(** ** Built-ins *)

Section BuiltinFacts.

Lemma Math_max_maximum x xs :
  (0 ≤ x)%Z → Math_max x xs = maximum (x :: xs).
Proof.
  unfold Math_max, maximum. revert x.
  induction xs as [|y ys IH]; intros x Hx; cbn [foldl foldr].
  - lia.
  - rewrite IH by lia. cbn [foldr]. lia.
Qed.

Lemma Math_max_upper xs : ∀ x y, y ∈ x :: xs → (y ≤ Math_max x xs)%Z.
Proof.
  unfold Math_max.
  induction xs as [|z zs IH]; intros x y; cbn [foldl].
  - intros ->%list_elem_of_singleton. lia.
  - intros [->|Hy]%elem_of_cons.
    + etrans; [|apply IH; by left]. lia.
    + apply elem_of_cons in Hy as [->|Hy].
      * etrans; [|apply IH; by left]. lia.
      * apply IH. by right.
Qed.

Lemma Math_max_elem xs : ∀ x, Math_max x xs ∈ x :: xs.
Proof.
  unfold Math_max.
  induction xs as [|z zs IH]; intros x; cbn [foldl].
  - by left.
  - pose proof (IH (Z.max x z)) as [E|Hin]%elem_of_cons.
    + rewrite E. destruct (Z.max_spec x z) as [[_ ->]|[_ ->]];
        [right; by left|by left].
    + right. by right.
Qed.

Lemma take_digits_all d : all_digits d = true → take_digits d = d.
Proof.
  induction d as [|c d IH]; [done|]. cbn [all_digits take_digits].
  intros [Hc Hd]%andb_prop. rewrite Hc. f_equal. by apply IH.
Qed.

Lemma match_INV_digits_eq s :
  match_INV_digits s =
    match INV_digits_here s with
    | String c d => Some (String c d)
    | EmptyString =>
        match s with
        | EmptyString => None
        | String _ s' => match_INV_digits s'
        end
    end.
Proof. by destruct s. Qed.

Lemma match_INV_digits_prefixed d :
  all_digits d = true → d ≠ "" → match_INV_digits ("INV-" +:+ d) = Some d.
Proof.
  intros Hd Hne. rewrite match_INV_digits_eq.
  assert (INV_digits_here ("INV-" +:+ d) = d) as ->.
  { unfold INV_digits_here. cbn. by apply take_digits_all. }
  by destruct d.
Qed.

Lemma all_digits_string_of_uint u :
  all_digits (NilEmpty.string_of_uint u) = true.
Proof. induction u; cbn; done. Qed.

Lemma decimal_nonneg n :
  (0 ≤ n)%Z → ∃ u, decimal n = NilEmpty.string_of_uint u ∧ u ≠ Decimal.Nil
                   ∧ Z.of_uint u = n.
Proof.
  intros Hn. unfold decimal. destruct n as [|p|p]; [| |lia].
  - by exists Decimal.zero.
  - exists (Pos.to_uint p). split_and!; [done| |].
    + apply DecimalPos.Unsigned.to_uint_nonnil.
    + unfold Z.of_uint. by rewrite DecimalPos.Unsigned.of_to.
Qed.

Lemma all_digits_decimal n : (0 ≤ n)%Z → all_digits (decimal n) = true.
Proof.
  intros (u & -> & _)%decimal_nonneg. apply all_digits_string_of_uint.
Qed.

Lemma decimal_nonempty n : (0 ≤ n)%Z → decimal n ≠ "".
Proof.
  intros (u & -> & Hu & _)%decimal_nonneg. by destruct u.
Qed.

Lemma digits_value_decimal n : (0 ≤ n)%Z → digits_value (decimal n) = n.
Proof.
  intros (u & -> & _ & Hu)%decimal_nonneg. unfold digits_value.
  by rewrite NilEmpty.usu.
Qed.

Lemma digits_value_zero s : digits_value (String "0" s) = digits_value s.
Proof.
  unfold digits_value. cbn [NilEmpty.uint_of_string].
  by destruct (NilEmpty.uint_of_string s).
Qed.

Lemma digits_value_zeros k s : digits_value (repeat_char "0" k +:+ s) = digits_value s.
Proof.
  induction k as [|k IH]; [done|].
  change (repeat_char "0" (S k) +:+ s)
    with (String "0" (repeat_char "0" k +:+ s)).
  by rewrite digits_value_zero.
Qed.

Lemma all_digits_zeros k s :
  all_digits s = true → all_digits (repeat_char "0" k +:+ s) = true.
Proof. intros Hs. induction k as [|k IH]; [done|]. exact IH. Qed.

Lemma zeros_nonempty k s : s ≠ "" → repeat_char "0" k +:+ s ≠ "".
Proof. by destruct k. Qed.



Lemma digits_value_nonneg d : (0 ≤ digits_value d)%Z.
Proof.
  unfold digits_value. destruct (NilEmpty.uint_of_string d); [|done].
  unfold Z.of_uint. lia.
Qed.

(** Up to [2^53] in size every integer is a double. *)
Lemma nearest_double_small x :
  (- 2 ^ 53 ≤ x ≤ 2 ^ 53)%Z → nearest_double x = x.
Proof.
  intros Hx. unfold nearest_double.
  destruct (Z.abs x <? 2 ^ 53)%Z eqn:E; [done|].
  apply Z.ltb_ge in E.
  assert (x = 2 ^ 53 ∨ x = - 2 ^ 53)%Z as [->| ->] by lia; reflexivity.
Qed.

Lemma parseInt_small js d :
  (digits_value d ≤ 2 ^ 53)%Z → parseInt js d = Int (digits_value d).
Proof.
  intros Hd. pose proof (digits_value_nonneg d) as H0. unfold parseInt.
  assert ((digits_value d <? 10 ^ 20)%Z = true) as -> by (apply Z.ltb_lt; lia).
  by rewrite nearest_double_small by lia.
Qed.

Lemma String_of_small js z :
  (0 ≤ z ≤ 2 ^ 53)%Z → String_of js (Int z) = decimal z.
Proof.
  intros Hz. unfold String_of.
  by assert ((Z.abs z <=? 2 ^ 53)%Z = true) as -> by (apply Z.leb_le; lia).
Qed.

Lemma foldl_max_number a ks :
  foldl max_number (Int a) (Int <$> ks) = Int (foldl Z.max a ks).
Proof.
  revert a. induction ks as [|k ks IH]; intros a; [done|].
  cbn [fmap list_fmap foldl max_number]. apply IH.
Qed.

Lemma Math_max_of_Int ks :
  ks ≠ [] → Forall (λ k, 0 ≤ k)%Z ks →
  Math_max_of (Int <$> ks) = Int (maximum ks).
Proof.
  intros Hne Hks. destruct ks as [|k ks]; [done|].
  unfold Math_max_of. cbn [fmap list_fmap foldl max_number].
  rewrite foldl_max_number. f_equal. apply Math_max_maximum.
  by inversion Hks.
Qed.

Lemma maximum_nonneg ns : (0 ≤ maximum ns)%Z.
Proof. unfold maximum. induction ns; cbn [foldr]; lia. Qed.

Lemma maximum_below b ns :
  (0 < b)%Z → Forall (λ k, k < b)%Z ns → (maximum ns < b)%Z.
Proof.
  intros Hb. unfold maximum. induction 1; cbn [foldr]; lia.
Qed.




(** The rounding is that of the doubles: [2^53 + 1] is not a double, the
    square of 94906267 is not one either, and a product of exact halves
    is. *)
Example nearest_double_rounds :
  nearest_double (2 ^ 53 + 1) = (2 ^ 53)%Z ∧
  nearest_double (2 ^ 53 + 3) = (2 ^ 53 + 4)%Z ∧
  nearest_double (- 2 ^ 53 - 1) = (- 2 ^ 53)%Z ∧
  times 94906267 94906267 = 9007199515875288%Q ∧
  times (3 # 2) (5 # 2) = (15 # 4)%Q.
Proof. split_and!; vm_compute; reflexivity. Qed.

(** A product with a zero factor is zero. *)
Lemma times_zero a b : (a == 0)%Q → times a b = 0%Q.
Proof.
  intros Ha. unfold times, nearest_double_Q.
  assert (Qeq_bool (a * b) 0 = true) as ->; [|done].
  apply Qeq_bool_iff. rewrite Ha. ring.
Qed.

End BuiltinFacts.

(** ** In-memory state *)

Section StateFacts.
Import State.

Lemma ordinal_of_padded js inv n w :
  (0 ≤ n ≤ 2 ^ 53)%Z →
  Invoice.invoiceNumber inv = Some ("INV-" +:+ padStart w "0" (decimal n)) →
  ordinal_of js inv = Some (Int n).
Proof.
  intros Hn E. unfold ordinal_of. rewrite E. unfold padStart.
  rewrite match_INV_digits_prefixed.
  - rewrite parseInt_small; rewrite digits_value_zeros, digits_value_decimal;
      (done || lia).
  - apply all_digits_zeros, all_digits_decimal. lia.
  - apply zeros_nonempty, decimal_nonempty. lia.
Qed.


(** What [generateInvoiceNumber] returns on a non-empty collection that the
    engine can spread and whose ordinals are below [2^53]. *)
Lemma generateInvoiceNumber_ordinals js l ks :
  l ≠ [] → (Z.of_nat (length l) ≤ argument_limit js)%Z →
  Forall2 (λ inv k, ordinal_of js inv = Some (Int k)) l ks →
  Forall (λ k, 0 ≤ k < 2 ^ 53)%Z ks →
  generateInvoiceNumber js true (Some (Storage.Encoded l))
    = Return ("INV-" +:+ padStart 3 "0" (decimal (maximum ks + 1))).
Proof.
  intros Hl Hlim Hord Hks. unfold generateInvoiceNumber.
  cbn [Storage.getAllInvoices].
  assert (mapM (ordinal_of js) l = Some (Int <$> ks)) as Hmap.
  { apply mapM_Some. apply Forall2_fmap_r. done. }
  destruct l as [|inv l]; [done|]. rewrite Hmap.
  assert (length (Int <$> ks) = length (inv :: l)) as ->.
  { rewrite length_fmap. symmetry. by eapply Forall2_length. }
  assert ((argument_limit js <? Z.of_nat (length (inv :: l)))%Z = false) as ->
    by (apply Z.ltb_ge; lia).
  assert (ks ≠ []) as Hne by (by inversion Hord).
  rewrite Math_max_of_Int;
    [|done|eapply Forall_impl; [exact Hks|]; cbn; lia].
  cbn [plus_one].
  assert (0 ≤ maximum ks < 2 ^ 53)%Z as Hmax.
  { split; [apply maximum_nonneg|]. apply maximum_below; [lia|].
    eapply Forall_impl; [exact Hks|]. cbn; lia. }
  rewrite nearest_double_small by lia.
  rewrite String_of_small by lia. done.
Qed.



(** A stored number without the pattern counts as 0, the pattern is found
    anywhere in the number, and at [2^53] adding one changes nothing: the
    number generated is one that is stored. *)
Example generateInvoiceNumber_other_shapes :
  generateInvoiceNumber an_engine true
    (Some (Storage.Encoded [numbered "draft"])) = Return "INV-001" ∧
  generateInvoiceNumber an_engine true
    (Some (Storage.Encoded [numbered "2024/INV-12a"; numbered "INV-"]))
    = Return "INV-013" ∧
  generateInvoiceNumber an_engine true
    (Some (Storage.Encoded [numbered "INV-1234"])) = Return "INV-1235" ∧
  generateInvoiceNumber an_engine true
    (Some (Storage.Encoded [numbered "INV-9007199254740992"]))
    = Return "INV-9007199254740992".
Proof. split_and!; vm_compute; reflexivity. Qed.

(** *** Loading a stored invoice *)

(** C4, as the code has it. [loadState] replaces the current invoice by the
    incoming record: a field that is present is taken from the record (an
    empty [invoiceNumber], [issueDate] or [dueDate] counts as absent); when
    absent, [business], [client], [invoiceNumber], [issueDate] and [dueDate]
    keep the current value, [items] becomes the empty sequence and
    [taxRate], [discount], [subtotal] and [total] become 0. *)
Theorem loadState_fallbacks d st :
  let st' := loadState d st in
  ((Invoice.business d = None → business st' = business st) ∧
   (Invoice.client d = None → client st' = client st) ∧
   (Invoice.invoiceNumber d = None → invoiceNumber st' = invoiceNumber st) ∧
   (Invoice.issueDate d = None → issueDate st' = issueDate st) ∧
   (Invoice.dueDate d = None → dueDate st' = dueDate st) ∧
   (Invoice.invoiceNumber d = Some "" →
      invoiceNumber st' = invoiceNumber st) ∧
   (Invoice.issueDate d = Some "" → issueDate st' = issueDate st) ∧
   (Invoice.dueDate d = Some "" → dueDate st' = dueDate st)) ∧
  ((Invoice.items d = None → items st' = []) ∧
   (Invoice.taxRate d = None → taxRate st' = 0%Q) ∧
   (Invoice.discount d = None → discount st' = 0%Q) ∧
   (Invoice.subtotal d = None → subtotal st' = 0%Q) ∧
   (Invoice.total d = None → total st' = 0%Q)) ∧
  ((∀ b, Invoice.business d = Some b → business st' = b) ∧
   (∀ c, Invoice.client d = Some c → client st' = c) ∧
   (∀ l, Invoice.items d = Some l → items st' = l) ∧
   (∀ s, Invoice.invoiceNumber d = Some s → s ≠ "" → invoiceNumber st' = s) ∧
   (∀ s, Invoice.issueDate d = Some s → s ≠ "" → issueDate st' = s) ∧
   (∀ s, Invoice.dueDate d = Some s → s ≠ "" → dueDate st' = s) ∧
   (∀ q, Invoice.taxRate d = Some q → (taxRate st' == q)%Q) ∧
   (∀ q, Invoice.discount d = Some q → (discount st' == q)%Q) ∧
   (∀ q, Invoice.subtotal d = Some q → (subtotal st' == q)%Q) ∧
   (∀ q, Invoice.total d = Some q → (total st' == q)%Q)).
Proof.
  assert (∀ q, (number_or (Some q) 0 == q)%Q) as Hnum.
  { intros q. unfold number_or. destruct (Qeq_bool q 0) eqn:E; [|reflexivity].
    apply Qeq_bool_iff in E. by symmetry. }
  assert (∀ s cur, s ≠ "" → string_or (Some s) cur = s) as Hstr.
  { intros [|c r] cur Hs; done. }
  cbn zeta. unfold loadState.
  cbn [business client items taxRate discount subtotal total invoiceNumber
       issueDate dueDate].
  split_and!; try (intros ->; done); try (intros ? ->; try done; by auto).
Qed.

Lemma loadState_fallbacks_witness :
  let st := updateTaxRate (Num 10) (initial "2024-05-01") in
  let d := numbered "INV-007" in
  Invoice.business d = None ∧ Invoice.taxRate d = None ∧
  business (loadState d st) = business st ∧
  taxRate (loadState d st) = 0%Q ∧
  invoiceNumber (loadState d st) = "INV-007".
Proof.
  cbn zeta.
  destruct (loadState_fallbacks (numbered "INV-007")
              (updateTaxRate (Num 10) (initial "2024-05-01")))
    as ((Hb & _) & (_ & Ht & _) & (_ & _ & _ & Hn & _)).
  split_and!; [done|done|by apply Hb|by apply Ht|by apply Hn].
Defined.

(** C4 fails as stated: with a tax rate of 10 in memory, loading a record
    without [taxRate] leaves the rate at 0, not at 10. *)
Lemma loadState_taxRate_not_kept :
  let st := updateTaxRate (Num 10) (initial "2024-05-01") in
  let d := numbered "INV-007" in
  Invoice.taxRate d = None ∧
  (taxRate st == 10)%Q ∧
  ¬ (taxRate (loadState d st) == taxRate st)%Q.
Proof. cbn zeta. split_and!; [done|done|]. vm_compute. discriminate. Qed.

(** C5, as the code has it. After [loadState] the counter is one more than
    the largest identifier of the loaded items when there are items (rounded
    as a double: exactly one more when that identifier is within [2^53] in
    size), and is left as it was when there are none; when the loaded
    identifiers are within [2^53] in size, the next [addItem] gets an
    identifier that no loaded item has, and after loading items 2 and 9 it
    gets 10. *)
Theorem loadState_nextItemId d st :
  let st' := loadState d st in
  (items st' = [] → nextItemId st' = nextItemId st) ∧
  (items st' ≠ [] →
     ∃ m, m ∈ LineItem.id <$> items st' ∧
          (∀ i, i ∈ LineItem.id <$> items st' → (i ≤ m)%Z) ∧
          nextItemId st' = nearest_double (m + 1) ∧
          ((- 2 ^ 53 ≤ m < 2 ^ 53)%Z → nextItemId st' = (m + 1)%Z)) ∧
  ((∀ i, i ∈ LineItem.id <$> items st' → (- 2 ^ 53 ≤ i < 2 ^ 53)%Z) →
   ∀ item, LineItem.id (addItem item st').1 ∉ LineItem.id <$> items st') ∧
  (∀ item, Invoice.items d = Some [item_with_id 2; item_with_id 9] →
           LineItem.id (addItem item st').1 = 10%Z).
Proof.
  cbn zeta.
  assert (items (loadState d st) ≠ [] →
          ∃ m, m ∈ LineItem.id <$> items (loadState d st) ∧
               (∀ i, i ∈ LineItem.id <$> items (loadState d st) → (i ≤ m)%Z) ∧
               nextItemId (loadState d st) = nearest_double (m + 1) ∧
               ((- 2 ^ 53 ≤ m < 2 ^ 53)%Z →
                nextItemId (loadState d st) = (m + 1)%Z)) as Hmax.
  { unfold loadState; cbn [items nextItemId].
    destruct (default [] (Invoice.items d)) as [|x xs]; [done|]. intros _.
    rewrite fmap_cons.
    exists (Math_max (LineItem.id x) (LineItem.id <$> xs)). split_and!.
    - apply Math_max_elem.
    - intros i. apply Math_max_upper.
    - done.
    - intros Hm. apply nearest_double_small. lia. }
  split_and!.
  - unfold loadState; cbn [items nextItemId]. by intros ->.
  - exact Hmax.
  - intros Hids item. cbn [addItem fst LineItem.id].
    destruct (items (loadState d st)) as [|x xs] eqn:E.
    + apply not_elem_of_nil.
    + destruct Hmax as (m & Hm & Hle & _ & Hnext); [done|].
      rewrite Hnext by (by apply Hids).
      intros Hin%Hle. lia.
  - intros item E. unfold loadState, addItem. by rewrite E.
Qed.

Lemma loadState_nextItemId_witness :
  let st := initial "2024-05-01" in
  let d := with_items [item_with_id 2; item_with_id 9] (numbered "INV-007") in
  items (loadState d st) ≠ [] ∧
  nextItemId (loadState d st) = 10%Z ∧
  (LineItem.id (addItem (mkItemFields None Undefined Undefined)
                  (loadState d st)).1
     ∉ LineItem.id <$> items (loadState d st)) ∧
  LineItem.id (addItem (mkItemFields None Undefined Undefined)
                 (loadState d st)).1 = 10%Z.
Proof.
  cbn zeta.
  destruct (loadState_nextItemId
              (with_items [item_with_id 2; item_with_id 9]
                 (numbered "INV-007"))
              (initial "2024-05-01")) as (_ & Hmax & Hfresh & Hex).
  split_and!; [done| | |by apply Hex].
  - destruct Hmax as (m & Hm & Hle & _ & Hnext); [done|].
    assert (9 ≤ m)%Z by (apply Hle; compute_done).
    assert (m = 2 ∨ m = 9)%Z as [->| ->]; [|lia|by apply Hnext].
    cbn in Hm. apply elem_of_cons in Hm as [->|Hm]; [by left|].
    apply list_elem_of_singleton in Hm. by right.
  - apply Hfresh. intros i Hi. cbn in Hi.
    apply elem_of_cons in Hi as [->|Hi]; [lia|].
    apply list_elem_of_singleton in Hi as ->. lia.
Defined.

(** C5 fails as stated: after one item was added the counter is 2, and
    loading an invoice without items leaves it at 2, not at 1; and after
    loading an item whose identifier is [2^53] the counter is [2^53], so that
    the next [addItem] gets the identifier of the loaded item. *)
Lemma loadState_empty_keeps_counter :
  (let st := (addItem (mkItemFields None (Num 1) (Num 0))
                (initial "2024-05-01")).2 in
   let d := with_items [] (numbered "INV-007") in
   items (loadState d st) = [] ∧
   nextItemId (loadState d st) = 2%Z ∧
   nextItemId (loadState d st) ≠ 1%Z) ∧
  (let st := initial "2024-05-01" in
   let d := with_items [item_with_id (2 ^ 53)] (numbered "INV-007") in
   nextItemId (loadState d st) = (2 ^ 53)%Z ∧
   LineItem.id (addItem (mkItemFields None (Num 1) (Num 0))
                  (loadState d st)).1
     ∈ LineItem.id <$> items (loadState d st)).
Proof.
  cbn zeta. split; [split_and!; done|].
  split; [reflexivity|]. vm_compute. by left.
Qed.

(** *** Quantity zero *)

(** C8. [addItem] with a quantity of 0 makes an item of quantity 1, the
    zero being falsy in [parseFloat(item.quantity) || 1]; [updateItem] with a
    quantity of 0 on an existing item sets its quantity to 0. *)
Theorem addItem_updateItem_zero_quantity (q : Q) desc p itemId st :
  (q == 0)%Q →
  itemId ∈ LineItem.id <$> items st →
  LineItem.quantity (addItem (mkItemFields desc (Num q) p) st).1 = 1%Q ∧
  ∃ k it it',
    items st !! k = Some it ∧ LineItem.id it = itemId ∧
    (∀ j y, items st !! j = Some y → (j < k)%nat → LineItem.id y ≠ itemId) ∧
    items (updateItem itemId (mkItemFields desc (Num q) p) st) !! k
      = Some it' ∧
    LineItem.id it' = itemId ∧
    LineItem.quantity it' = 0%Q ∧
    (LineItem.total it' == 0)%Q.
Proof.
  intros Hq Hin.
  assert (Qeq_bool q 0 = true) as Hb by (by apply Qeq_bool_iff).
  split.
  - cbn. unfold parseFloat_or. cbn. by rewrite Hb.
  - destruct (list_find (λ i, LineItem.id i = itemId) (items st))
      as [[k it]|] eqn:E.
    + exists k, it, (apply_updates (mkItemFields desc (Num q) p) it).
      unfold updateItem. rewrite E. cbn [items set_items].
      apply list_find_Some in E as (Hk & Hid & Hleast).
      assert (LineItem.quantity
                (apply_updates (mkItemFields desc (Num q) p) it) = 0%Q) as Hz.
      { cbn. unfold parseFloat_or. cbn. by rewrite Hb. }
      split_and!; [done|done|exact Hleast| |done|exact Hz|].
      * apply list_lookup_insert_eq. by eapply lookup_lt_Some.
      * unfold apply_updates in *. cbn [LineItem.total LineItem.quantity] in *.
        cbn [quantity] in *. rewrite Hz. by rewrite times_zero.
    + exfalso. apply list_find_None in E.
      apply list_elem_of_fmap in Hin as (y & -> & Hy).
      rewrite Forall_forall in E. by apply (E y).
Qed.

Lemma addItem_updateItem_zero_quantity_witness :
  let st := (addItem (mkItemFields (Some "Design") (Num 3) (Num 50))
               (initial "2024-05-01")).2 in
  (0 == 0)%Q ∧
  (1%Z ∈ LineItem.id <$> items st) ∧
  LineItem.quantity
    (addItem (mkItemFields (Some "Design") (Num 0) (Num 50)) st).1 = 1%Q ∧
  LineItem.quantity <$>
    items (updateItem 1 (mkItemFields None (Num 0) Undefined) st) = [0%Q].
Proof.
  cbn zeta. split_and!; [done|compute_done| |reflexivity].
  apply (addItem_updateItem_zero_quantity 0 (Some "Design") (Num 50) 1%Z
           (addItem (mkItemFields (Some "Design") (Num 3) (Num 50))
              (initial "2024-05-01")).2); [done|compute_done].
Defined.

End StateFacts.

(** * Further properties *)

(** ** More on the calculations *)

Section MoreCalculationsFacts.
Import Calculations.
Local Open Scope float_scope.

Lemma at_most_zero x :
  (x <=? 0) = true → is_nan x = false ∧ (0 <? x) = false.
Proof.
  unfold is_nan.
  rewrite FloatAxioms.leb_spec, FloatAxioms.ltb_spec, FloatAxioms.eqb_spec.
  destruct (Prim2SF x) as [[]|[]| |[] m e]; cbn; try discriminate;
    intros _; split; try reflexivity;
    by rewrite Z.compare_refl, Pos.compare_cont_refl.
Qed.

Lemma above_zero x : (0 <? x) = true → is_nan x = false.
Proof.
  unfold is_nan. rewrite FloatAxioms.ltb_spec, FloatAxioms.eqb_spec.
  destruct (Prim2SF x) as [[]|[]| |[] m e]; cbn; try discriminate;
    intros _; try reflexivity.
  by rewrite Z.compare_refl, Pos.compare_cont_refl.
Qed.

(** X3. Whatever the arguments, the total of [calculateTotal] is not
    negative: it is 0 when subtotal plus tax less discount, as the result
    has them, is 0 or below, and that amount when it is above 0.  An
    argument that is not a number counts as 0. *)
Theorem calculateTotal_clamp (s r d : float) :
  let t := calculateTotal s r d in
  (total t <? 0) = false ∧
  ((subtotal t + tax t - discount t <=? 0) = true → total t = 0) ∧
  ((0 <? subtotal t + tax t - discount t) = true →
   total t = subtotal t + tax t - discount t) ∧
  calculateTotal nan r d = calculateTotal 0 r d ∧
  calculateTotal s nan d = calculateTotal s 0 d ∧
  calculateTotal s r nan = calculateTotal s r 0.
Proof.
  cbn zeta. split_and!; try reflexivity.
  - apply Math_max2_0_not_negative.
  - unfold calculateTotal; cbn [total subtotal tax discount].
    intros [Hn Hp]%at_most_zero. unfold Math_max2.
    change (is_nan 0) with false. change (is_negative_zero 0) with false.
    cbn [orb andb]. by rewrite Hn, Hp.
  - unfold calculateTotal; cbn [total subtotal tax discount].
    intros Hp. unfold Math_max2.
    change (is_nan 0) with false. change (is_negative_zero 0) with false.
    cbn [orb andb]. by rewrite (above_zero _ Hp), Hp.
Qed.

Lemma calculateTotal_clamp_witness :
  (subtotal (calculateTotal 10 0 1000) + tax (calculateTotal 10 0 1000)
   - discount (calculateTotal 10 0 1000) <=? 0) = true ∧
  total (calculateTotal 10 0 1000) = 0 ∧
  total (calculateTotal 200 7.5 20) = 195.
Proof.
  split; [reflexivity|]. split.
  - by apply (calculateTotal_clamp 10 0 1000).
  - destruct (calculateTotal_clamp 200 7.5 20) as (_ & _ & H & _).
    cbn zeta in H. rewrite H; reflexivity.
Defined.

End MoreCalculationsFacts.

(** ** Items of the in-memory state *)

Section ItemFacts.
Import State.

Implicit Types (st : state) (l : list LineItem.item).


Lemma id_apply_updates updates item :
  LineItem.id (apply_updates updates item) = LineItem.id item.
Proof. reflexivity. Qed.

Lemma ids_updateItem itemId updates st :
  LineItem.id <$> items (updateItem itemId updates st)
    = LineItem.id <$> items st.
Proof.
  unfold updateItem.
  destruct (list_find _ (items st)) as [[k item]|] eqn:E; [|done].
  cbn [items set_items]. rewrite list_fmap_insert, id_apply_updates.
  apply list_insert_id. apply list_find_Some in E as (Hk & _).
  by rewrite list_lookup_fmap, Hk.
Qed.

Lemma set_items_same st : set_items (items st) st = st.
Proof. by destruct st. Qed.

Lemma filter_id_absent l itemId :
  itemId ∉ LineItem.id <$> l →
  filter (λ item, LineItem.id item ≠ itemId) l = l.
Proof.
  induction l as [|x l IH]; [done|].
  rewrite fmap_cons, not_elem_of_cons. intros [Hx Hl].
  rewrite filter_cons_True by congruence. f_equal. by apply IH.
Qed.

Lemma filter_id_present l itemId :
  NoDup (LineItem.id <$> l) → itemId ∈ LineItem.id <$> l →
  S (length (filter (λ item, LineItem.id item ≠ itemId) l)) = length l.
Proof.
  induction l as [|x l IH].
  - intros _ Hin. by apply elem_of_nil in Hin.
  - rewrite fmap_cons, NoDup_cons, elem_of_cons. intros [Hx Hnd] Hin.
    destruct (decide (LineItem.id x = itemId)) as [E|E].
    + rewrite filter_cons_False by (intros H; by apply H).
      rewrite filter_id_absent by (by rewrite <- E). done.
    + rewrite filter_cons_True by done. cbn [length]. f_equal.
      apply IH; [done|]. destruct Hin as [Hin|Hin]; [congruence|done].
Qed.

Lemma ids_in_order_addItem item st :
  (- 2 ^ 53 ≤ nextItemId st < 2 ^ 53)%Z →
  ids_in_order st → ids_in_order (addItem item st).2.
Proof.
  intros Hn [Hnd Hlt]. unfold ids_in_order, addItem.
  cbn [snd items nextItemId set_items set_nextItemId].
  rewrite nearest_double_small by lia.
  rewrite fmap_app. cbn [fmap list_fmap LineItem.id]. split.
  - apply NoDup_app. split_and!; [done| |apply NoDup_singleton].
    intros i Hi ->%list_elem_of_singleton. apply Hlt in Hi. lia.
  - intros i [Hi| ->%list_elem_of_singleton]%elem_of_app; [|lia].
    apply Hlt in Hi. lia.
Qed.

Lemma ids_in_order_updateItem itemId updates st :
  ids_in_order st → ids_in_order (updateItem itemId updates st).
Proof.
  intros [Hnd Hlt]. unfold ids_in_order. rewrite ids_updateItem.
  assert (nextItemId (updateItem itemId updates st) = nextItemId st) as ->;
    [|done].
  unfold updateItem. by destruct (list_find _ _) as [[??]|].
Qed.

Lemma ids_in_order_removeItem itemId st :
  ids_in_order st → ids_in_order (removeItem itemId st).
Proof.
  intros [Hnd Hlt]. unfold ids_in_order, removeItem.
  cbn [items nextItemId set_items]. split.
  - eapply sublist_NoDup; [exact Hnd|]. apply fmap_sublist, sublist_filter.
  - intros i (x & -> & [_ Hx]%list_elem_of_filter)%list_elem_of_fmap.
    apply Hlt. by apply list_elem_of_fmap_2.
Qed.

Lemma ids_in_order_no_items st : items st = [] → ids_in_order st.
Proof.
  intros E. unfold ids_in_order. rewrite E. split; [apply NoDup_nil_2|].
  intros i Hi. by apply elem_of_nil in Hi.
Qed.

(** X5. The identifiers of the items stay pairwise distinct and below the
    counter: the starting state has the property, [updateItem] and
    [removeItem] keep it, and so does [addItem] while the counter is below
    [2^53] in size. *)
Theorem ids_in_order_kept st item itemId updates today :
  ids_in_order st →
  ids_in_order (initial today) ∧
  ((- 2 ^ 53 ≤ nextItemId st < 2 ^ 53)%Z →
   ids_in_order (addItem item st).2) ∧
  ids_in_order (updateItem itemId updates st) ∧
  ids_in_order (removeItem itemId st).
Proof.
  intros H. split_and!.
  - by apply ids_in_order_no_items.
  - intros Hn. by apply ids_in_order_addItem.
  - by apply ids_in_order_updateItem.
  - by apply ids_in_order_removeItem.
Qed.

Lemma ids_in_order_kept_witness :
  let st := (addItem (mkItemFields (Some "Design") (Num 3) (Num 50))
               (initial "2024-05-01")).2 in
  ids_in_order st ∧
  (- 2 ^ 53 ≤ nextItemId st < 2 ^ 53)%Z ∧
  ids_in_order (addItem (mkItemFields None Undefined Undefined) st).2 ∧
  ids_in_order (removeItem 1 st).
Proof.
  cbn zeta.
  assert (ids_in_order
            (addItem (mkItemFields (Some "Design") (Num 3) (Num 50))
               (initial "2024-05-01")).2) as H.
  { split; [compute_done|]. intros i Hi. cbn in Hi.
    apply list_elem_of_singleton in Hi as ->. done. }
  destruct (ids_in_order_kept _ (mkItemFields None Undefined Undefined) 1
              (mkItemFields None Undefined Undefined) "2024-05-01" H)
    as (_ & Hadd & _ & Hrem).
  split_and!; [exact H|done|done|by apply Hadd|exact Hrem].
Defined.

(** At [2^53] the counter no longer moves: two items added one after the
    other get the same identifier. *)
Example addItem_at_2_53 :
  let st := set_nextItemId (2 ^ 53) (initial "2024-05-01") in
  LineItem.id <$> items (addItem (mkItemFields None Undefined Undefined)
                           (addItem (mkItemFields None Undefined Undefined)
                              st).2).2
    = [2 ^ 53; 2 ^ 53]%Z.
Proof. reflexivity. Qed.




(** X7. [removeItem] drops every item with the identifier and keeps the
    others in their order; an identifier no item has changes nothing; when
    the identifiers are distinct exactly one item goes.  The counter is not
    touched. *)
Theorem removeItem_effect itemId st :
  let st' := removeItem itemId st in
  (itemId ∉ LineItem.id <$> items st') ∧
  items st' `sublist_of` items st ∧
  (∀ x, x ∈ items st' ↔ x ∈ items st ∧ LineItem.id x ≠ itemId) ∧
  (itemId ∉ LineItem.id <$> items st → st' = st) ∧
  (NoDup (LineItem.id <$> items st) → itemId ∈ LineItem.id <$> items st →
     S (length (items st')) = length (items st)) ∧
  nextItemId st' = nextItemId st.
Proof.
  cbn zeta. unfold removeItem. cbn [items set_items nextItemId]. split_and!.
  - intros (x & -> & [Hx _]%list_elem_of_filter)%list_elem_of_fmap.
    by apply Hx.
  - apply sublist_filter.
  - intros x. rewrite list_elem_of_filter. tauto.
  - intros Hout. rewrite filter_id_absent by done. apply set_items_same.
  - apply filter_id_present.
  - done.
Qed.

Lemma removeItem_effect_witness :
  let st := (addItem (mkItemFields (Some "Hosting") (Num 1) (Num 20))
               (addItem (mkItemFields (Some "Design") (Num 3) (Num 50))
                  (initial "2024-05-01")).2).2 in
  NoDup (LineItem.id <$> items st) ∧
  (1%Z ∈ LineItem.id <$> items st) ∧
  S (length (items (removeItem 1 st))) = 2%nat ∧
  LineItem.id <$> items (removeItem 1 st) = [2%Z].
Proof.
  cbn zeta.
  destruct (removeItem_effect 1
              (addItem (mkItemFields (Some "Hosting") (Num 1) (Num 20))
                 (addItem (mkItemFields (Some "Design") (Num 3) (Num 50))
                    (initial "2024-05-01")).2).2)
    as (_ & _ & _ & _ & Hlen & _).
  split_and!; [compute_done|compute_done| |reflexivity].
  apply Hlen; compute_done.
Defined.

(** X8. While the counter is below [2^53] in size, removing the item that
    [addItem] has just added gives back the items there were, but not the
    counter: the identifier is not handed out again. *)
Theorem addItem_removeItem item item2 st :
  (∀ i, i ∈ LineItem.id <$> items st → (i < nextItemId st)%Z) →
  (- 2 ^ 53 ≤ nextItemId st < 2 ^ 53)%Z →
  let added := addItem item st in
  let st' := removeItem (LineItem.id added.1) added.2 in
  LineItem.id added.1 = nextItemId st ∧
  items st' = items st ∧
  nextItemId st' = (nextItemId st + 1)%Z ∧
  LineItem.id (addItem item2 st').1 ≠ LineItem.id added.1.
Proof.
  intros Hlt Hn. cbn zeta. unfold addItem, removeItem.
  cbn [fst snd items nextItemId set_items set_nextItemId LineItem.id].
  rewrite nearest_double_small by lia.
  split_and!; [done| |done|lia].
  rewrite filter_app, filter_id_absent.
  - rewrite filter_cons_False, filter_nil, app_nil_r; [done|].
    cbn [LineItem.id]. intros H. by apply H.
  - intros Hin%Hlt. lia.
Qed.

Lemma addItem_removeItem_witness :
  let st := (addItem (mkItemFields (Some "Design") (Num 3) (Num 50))
               (initial "2024-05-01")).2 in
  (∀ i, i ∈ LineItem.id <$> items st → (i < nextItemId st)%Z) ∧
  (- 2 ^ 53 ≤ nextItemId st < 2 ^ 53)%Z ∧
  items (removeItem 2 (addItem (mkItemFields None Undefined Undefined) st).2)
    = items st ∧
  LineItem.id
    (addItem (mkItemFields None Undefined Undefined)
       (removeItem 2
          (addItem (mkItemFields None Undefined Undefined) st).2)).1 = 3%Z.
Proof.
  cbn zeta.
  assert (∀ i, i ∈ LineItem.id <$>
                 items (addItem (mkItemFields (Some "Design") (Num 3) (Num 50))
                          (initial "2024-05-01")).2 →
               (i < nextItemId
                      (addItem (mkItemFields (Some "Design") (Num 3) (Num 50))
                         (initial "2024-05-01")).2)%Z) as H.
  { intros i Hi. cbn in Hi. apply list_elem_of_singleton in Hi as ->. done. }
  destruct (addItem_removeItem (mkItemFields None Undefined Undefined)
              (mkItemFields None Undefined Undefined) _ H)
    as (_ & Hitems & _ & _); [done|].
  split_and!; [exact H|done|done|exact Hitems|reflexivity].
Defined.

(** X9. [updateBusiness] sets the fields its argument has and keeps the
    others, leaves the rest of the state alone, gives the same state when
    applied twice, and commutes with [updateClient]. *)
Theorem updateBusiness_merge (d c : partyData) st :
  let st' := updateBusiness d st in
  (∀ s, name d = Some s → Party.name (business st') = s) ∧
  (name d = None → Party.name (business st') = Party.name (business st)) ∧
  (∀ s, phone d = Some s → Party.phone (business st') = s) ∧
  (phone d = None → Party.phone (business st') = Party.phone (business st)) ∧
  (∀ s, address d = Some s → Party.address (business st') = s) ∧
  (address d = None →
     Party.address (business st') = Party.address (business st)) ∧
  client st' = client st ∧ items st' = items st ∧
  invoiceNumber st' = invoiceNumber st ∧
  updateBusiness d st' = st' ∧
  updateBusiness d (updateClient c st) = updateClient c (updateBusiness d st) ∧
  business (updateClient c st) = business st.
Proof.
  cbn zeta. unfold updateBusiness, updateClient, merge_party.
  cbn [business client items invoiceNumber Party.name Party.phone
       Party.address].
  split_and!; try done; try (by intros s ->); try (by intros ->).
  f_equal. by destruct (name d), (phone d), (address d).
Qed.

Lemma updateBusiness_merge_witness :
  let st := updateBusiness (mkPartyData (Some "Acme") (Some "0801") None)
              (initial "2024-05-01") in
  let d := mkPartyData None (Some "0802") None in
  name d = None ∧ phone d = Some "0802" ∧
  Party.name (business (updateBusiness d st)) = "Acme" ∧
  Party.phone (business (updateBusiness d st)) = "0802".
Proof.
  cbn zeta.
  destruct (updateBusiness_merge (mkPartyData None (Some "0802") None)
              (mkPartyData None None None)
              (updateBusiness (mkPartyData (Some "Acme") (Some "0801") None)
                 (initial "2024-05-01"))) as (_ & Hname & Hphone & _).
  split_and!; [done|done| |by apply Hphone].
  rewrite Hname; done.
Defined.

End ItemFacts.

(** ** More on the stored collection *)

Section MoreStorageFacts.
Import Invoice Storage.

Implicit Types (l : list invoiceData) (ls : localStorage)
  (n m : option string) (inv : invoiceData).

(** X12. The last write wins: a save under a number replaces what an earlier
    save under that number wrote, so that two saves leave what the second
    alone would have left; in particular a repeated save changes nothing. *)
Theorem saveInvoice_last_write_wins now1 now2 inv1 inv2 ls :
  invoiceNumber inv1 = invoiceNumber inv2 →
  saveInvoice now2 inv2 (saveInvoice now1 inv1 ls).2
    = saveInvoice now2 inv2 ls ∧
  saveInvoice now1 inv1 (saveInvoice now1 inv1 ls).2
    = saveInvoice now1 inv1 ls.
Proof.
  assert (∀ t1 t2 a b, invoiceNumber a = invoiceNumber b →
            saveInvoice t2 b (saveInvoice t1 a ls).2 = saveInvoice t2 b ls)
    as Hgen.
  { intros t1 t2 a b E.
    destruct (list_find (λ x, invoiceNumber x = invoiceNumber a)
                (getAllInvoices ls)) as [[i old]|] eqn:F.
    - rewrite (saveInvoice_found t1 a ls i old F). cbn [snd].
      assert (list_find (λ x, invoiceNumber x = invoiceNumber b)
                (<[i:=with_savedAt t1 a]> (getAllInvoices ls))
              = Some (i, with_savedAt t1 a)) as F1.
      { rewrite <- E. by eapply list_find_insert_hit. }
      rewrite (saveInvoice_found t2 b
                 (Some (Encoded (<[i:=with_savedAt t1 a]> (getAllInvoices ls))))
                 i _ F1). cbn [getAllInvoices].
      rewrite list_insert_insert_eq.
      rewrite E in F. by rewrite (saveInvoice_found t2 b ls i old F).
    - apply find_None_iff in F.
      rewrite (saveInvoice_fresh t1 a ls F). cbn [snd].
      assert (list_find (λ x, invoiceNumber x = invoiceNumber b)
                (getAllInvoices ls ++ [with_savedAt t1 a])
              = Some (length (getAllInvoices ls), with_savedAt t1 a)) as F1.
      { rewrite <- E. by apply list_find_snoc_fresh. }
      rewrite (saveInvoice_found t2 b
                 (Some (Encoded (getAllInvoices ls ++ [with_savedAt t1 a])))
                 _ _ F1). cbn [getAllInvoices].
      rewrite E in F. rewrite (saveInvoice_fresh t2 b ls F).
      do 3 f_equal.
      rewrite <- (Nat.add_0_r (length (getAllInvoices ls))).
      by rewrite insert_app_r. }
  intros E. split; by apply Hgen.
Qed.

Lemma saveInvoice_last_write_wins_witness :
  let ls := Some (Encoded [numbered "INV-001"; numbered "INV-002"]) in
  invoiceNumber (numbered "INV-002")
    = invoiceNumber (with_items [] (numbered "INV-002")) ∧
  getAllInvoices
    (saveInvoice "t2" (with_items [] (numbered "INV-002"))
       (saveInvoice "t1" (numbered "INV-002") ls).2).2
    = [numbered "INV-001";
       with_savedAt "t2" (with_items [] (numbered "INV-002"))].
Proof.
  cbn zeta. split; [done|].
  destruct (saveInvoice_last_write_wins "t1" "t2" (numbered "INV-002")
              (with_items [] (numbered "INV-002"))
              (Some (Encoded [numbered "INV-001"; numbered "INV-002"])))
    as [-> _]; [done|]. reflexivity.
Defined.

Lemma list_find_insert_miss l n : ∀ i new,
  invoiceNumber new ≠ n →
  (∀ old, l !! i = Some old → invoiceNumber old ≠ n) →
  list_find (λ x, invoiceNumber x = n) (<[i:=new]> l)
    = list_find (λ x, invoiceNumber x = n) l.
Proof.
  induction l as [|x l IH]; intros i new Hnew Hold; [done|].
  destruct i as [|i]; cbn [list_insert insert list_find].
  - change (<[0%nat:=new]> (x :: l)) with (new :: l). cbn [list_find].
    rewrite decide_False by done.
    rewrite decide_False by (by apply Hold). done.
  - change (<[S i:=new]> (x :: l)) with (x :: <[i:=new]> l). cbn [list_find].
    destruct (decide (invoiceNumber x = n)); [done|].
    rewrite IH; [done|done|]. intros old Ho. by apply Hold.
Qed.

Lemma list_find_snoc_miss l n new :
  invoiceNumber new ≠ n →
  list_find (λ x, invoiceNumber x = n) (l ++ [new])
    = list_find (λ x, invoiceNumber x = n) l.
Proof.
  intros Hnew.
  destruct (list_find (λ x, invoiceNumber x = n) l) as [[i y]|] eqn:E.
  - by apply list_find_app_l.
  - rewrite list_find_app_r by done. cbn [list_find].
    by rewrite decide_False.
Qed.

Lemma find_filter_other l n m :
  n ≠ m →
  find (λ x, invoiceNumber x = n) (filter (λ x, invoiceNumber x ≠ m) l)
    = find (λ x, invoiceNumber x = n) l.
Proof.
  intros Hnm. unfold find. induction l as [|x l IH]; [done|].
  rewrite filter_cons. cbn [list_find].
  destruct (decide (invoiceNumber x = n)) as [E|E].
  - rewrite decide_True by congruence. cbn [list_find].
    by rewrite decide_True.
  - destruct (decide (invoiceNumber x ≠ m)).
    + cbn [list_find]. rewrite decide_False by done.
      destruct (list_find _ (filter _ l)) as [[??]|],
        (list_find _ l) as [[??]|]; cbn in *; congruence.
    + destruct (list_find _ (filter _ l)) as [[??]|],
        (list_find _ l) as [[??]|]; cbn in *; congruence.
Qed.

(** X13. Saving or deleting under one number does not change what
    [getInvoice] returns for any other number. *)
Theorem getInvoice_other_number n now inv m ls :
  (n ≠ invoiceNumber inv →
     getInvoice n (saveInvoice now inv ls).2 = getInvoice n ls) ∧
  (n ≠ m → getInvoice n (deleteInvoice m ls).2 = getInvoice n ls).
Proof.
  split.
  - intros Hn. unfold getInvoice, find.
    destruct (list_find (λ x, invoiceNumber x = invoiceNumber inv)
                (getAllInvoices ls)) as [[i old]|] eqn:F.
    + rewrite (saveInvoice_found now inv ls i old F). cbn [snd getAllInvoices].
      apply list_find_Some in F as (Hi & Ho & _).
      rewrite list_find_insert_miss; [done|by cbn|].
      intros old' Ho'. congruence.
    + apply find_None_iff in F. rewrite (saveInvoice_fresh now inv ls F).
      cbn [snd getAllInvoices]. by rewrite list_find_snoc_miss.
  - intros Hnm. unfold getInvoice. rewrite getAllInvoices_deleteInvoice.
    by apply find_filter_other.
Qed.

Lemma getInvoice_other_number_witness :
  let ls := Some (Encoded [numbered "INV-001"; numbered "INV-002"]) in
  Some "INV-001" ≠ invoiceNumber (numbered "INV-002") ∧
  getInvoice (Some "INV-001") (saveInvoice "t" (numbered "INV-002") ls).2
    = Some (numbered "INV-001") ∧
  getInvoice (Some "INV-001") (deleteInvoice (Some "INV-002") ls).2
    = Some (numbered "INV-001").
Proof.
  cbn zeta.
  destruct (getInvoice_other_number (Some "INV-001") "t" (numbered "INV-002")
              (Some "INV-002")
              (Some (Encoded [numbered "INV-001"; numbered "INV-002"])))
    as [Hs Hd].
  split_and!; [done|by rewrite Hs|by rewrite Hd].
Defined.

(** X14. [getInvoice] returns the first stored invoice with the number
    asked for, and [null] exactly when no stored invoice has it. *)
Theorem getInvoice_first_match n ls :
  (∀ x, getInvoice n ls = Some x →
        invoiceNumber x = n ∧
        ∃ i, getAllInvoices ls !! i = Some x ∧
             ∀ j y, getAllInvoices ls !! j = Some y → (j < i)%nat →
                    invoiceNumber y ≠ n) ∧
  (getInvoice n ls = None ↔ n ∉ numbers (getAllInvoices ls)) ∧
  (n ∈ numbers (getAllInvoices ls) → is_Some (getInvoice n ls)).
Proof.
  split_and!.
  - intros x. unfold getInvoice, find.
    destruct (list_find _ _) as [[i y]|] eqn:E; [|done].
    intros [= <-]. apply list_find_Some in E as (Hi & Hn & Hleast).
    split; [done|]. by exists i.
  - apply getInvoice_None_iff.
  - intros Hin. destruct (getInvoice n ls) eqn:E; [done|].
    by apply getInvoice_None_iff in E.
Qed.

Lemma getInvoice_first_match_witness :
  let ls := Some (Encoded [numbered "INV-001"; numbered "INV-002"]) in
  (Some "INV-002" ∈ numbers (getAllInvoices ls)) ∧
  (Some "INV-009" ∉ numbers (getAllInvoices ls)) ∧
  is_Some (getInvoice (Some "INV-002") ls) ∧
  getInvoice (Some "INV-009") ls = None.
Proof.
  cbn zeta.
  destruct (getInvoice_first_match (Some "INV-002")
              (Some (Encoded [numbered "INV-001"; numbered "INV-002"])))
    as (_ & _ & Hsome).
  destruct (getInvoice_first_match (Some "INV-009")
              (Some (Encoded [numbered "INV-001"; numbered "INV-002"])))
    as (_ & Hnone & _).
  split_and!; [compute_done|compute_done|apply Hsome; compute_done|
               apply Hnone; compute_done].
Defined.


(** X15. When each stored number occurs once, it still does after
    [saveInvoice], [deleteInvoice], [importInvoices] and
    [clearAllInvoices]; so it does in every store built from the empty one. *)
Theorem writers_keep_numbers_unique now inv n file ls :
  NoDup (numbers (getAllInvoices ls)) →
  NoDup (numbers (getAllInvoices (saveInvoice now inv ls).2)) ∧
  NoDup (numbers (getAllInvoices (deleteInvoice n ls).2)) ∧
  NoDup (numbers (getAllInvoices (importInvoices file ls).2)) ∧
  NoDup (numbers (getAllInvoices (clearAllInvoices ls).2)) ∧
  (∀ ls', reachable ls' → NoDup (numbers (getAllInvoices ls'))).
Proof.
  intros Hnd. split_and!.
  - by apply unique_saveInvoice.
  - by apply unique_deleteInvoice.
  - by apply unique_importInvoices.
  - apply NoDup_nil_2.
  - apply reachable_unique.
Qed.

Lemma writers_keep_numbers_unique_witness :
  let ls := Some (Encoded [numbered "INV-001"; numbered "INV-002"]) in
  NoDup (numbers (getAllInvoices ls)) ∧
  NoDup (numbers (getAllInvoices
    (importInvoices
       (Loaded (ArrayOf [numbered "INV-002"; numbered "INV-003";
                         numbered "INV-003"])) ls).2)).
Proof.
  cbn zeta.
  assert (NoDup (numbers (getAllInvoices
            (Some (Encoded [numbered "INV-001"; numbered "INV-002"])))))
    as H by compute_done.
  split; [exact H|].
  by destruct (writers_keep_numbers_unique "t" (numbered "INV-001") None
                 (Loaded (ArrayOf [numbered "INV-002"; numbered "INV-003";
                                   numbered "INV-003"])) _ H)
    as (_ & _ & Himp & _).
Defined.

Lemma fresh_entries_all_seen imported : ∀ seen,
  (∀ x, x ∈ imported → invoiceNumber x ∈ seen) →
  fresh_entries seen imported = [].
Proof.
  induction imported as [|x rest IH]; intros seen Hall; [done|].
  cbn [fresh_entries]. rewrite decide_True by (apply Hall; by left).
  apply IH. intros y Hy. apply Hall. by right.
Qed.

(** X16. Importing the same file a second time changes nothing. *)
Theorem importInvoices_twice file ls :
  importInvoices file (importInvoices file ls).2 = importInvoices file ls.
Proof.
  destruct file as [|[| |imported]]; try done.
  cbn [importInvoices snd getAllInvoices]. rewrite !foldl_merge_one.
  assert (fresh_entries
            (numbers (getAllInvoices ls
                      ++ fresh_entries (numbers (getAllInvoices ls)) imported))
            imported = []) as ->; [|by rewrite app_nil_r].
  apply fresh_entries_all_seen.
  intros x Hx. unfold numbers at 1. rewrite fmap_app, elem_of_app.
  destruct (decide (invoiceNumber x ∈ numbers (getAllInvoices ls)));
    [by left|right].
  by apply fresh_entries_covers.
Qed.

(** X17. An import keeps every stored invoice at its place: the collection
    does not get shorter, and [getInvoice] of a number that was stored
    returns what it returned before (the stored invoice wins over an
    imported one). *)
Theorem importInvoices_keeps_stored file n ls :
  let ls' := (importInvoices file ls).2 in
  (∀ i x, getAllInvoices ls !! i = Some x → getAllInvoices ls' !! i = Some x) ∧
  length (getAllInvoices ls) ≤ length (getAllInvoices ls') ∧
  (n ∈ numbers (getAllInvoices ls) → getInvoice n ls' = getInvoice n ls).
Proof.
  cbn zeta. destruct file as [|[| |imported]]; try done.
  rewrite getAllInvoices_importInvoices. split_and!.
  - intros i x Hi. by apply lookup_app_l_Some.
  - rewrite length_app. lia.
  - intros Hin. unfold getInvoice, find.
    rewrite getAllInvoices_importInvoices.
    destruct (list_find (λ x, invoiceNumber x = n) (getAllInvoices ls))
      as [[i y]|] eqn:E.
    + by rewrite (list_find_app_l _ _ _ _ _ E).
    + by apply find_None_iff in E.
Qed.

Lemma importInvoices_keeps_stored_witness :
  let ls := Some (Encoded [with_savedAt "mine" (numbered "INV-001")]) in
  (Some "INV-001" ∈ numbers (getAllInvoices ls)) ∧
  getInvoice (Some "INV-001")
    (importInvoices
       (Loaded (ArrayOf [with_savedAt "theirs" (numbered "INV-001")])) ls).2
    = Some (with_savedAt "mine" (numbered "INV-001")).
Proof.
  cbn zeta. split; [compute_done|].
  destruct (importInvoices_keeps_stored
              (Loaded (ArrayOf [with_savedAt "theirs" (numbered "INV-001")]))
              (Some "INV-001")
              (Some (Encoded [with_savedAt "mine" (numbered "INV-001")])))
    as (_ & _ & H). rewrite H by compute_done. reflexivity.
Defined.

Lemma deleteInvoice_saveInvoice_fresh now inv ls :
  invoiceNumber inv ∉ numbers (getAllInvoices ls) →
  getAllInvoices (deleteInvoice (invoiceNumber inv)
                    (saveInvoice now inv ls).2).2
    = getAllInvoices ls.
Proof.
  intros Hout. rewrite getAllInvoices_deleteInvoice.
  rewrite saveInvoice_fresh by done. cbn [snd getAllInvoices].
  rewrite filter_app, filter_absent by done.
  rewrite filter_cons_False, filter_nil, app_nil_r; [done|].
  intros H. by apply H.
Qed.

Lemma filter_insert_same_number l n : ∀ i old new,
  l !! i = Some old → invoiceNumber old = n → invoiceNumber new = n →
  filter (λ x, invoiceNumber x ≠ n) (<[i:=new]> l)
    = filter (λ x, invoiceNumber x ≠ n) l.
Proof.
  induction l as [|x l IH]; intros i old new Hi Ho Hn; [done|].
  destruct i as [|i].
  - injection Hi as ->.
    change (<[0%nat:=new]> (old :: l)) with (new :: l).
    rewrite !filter_cons_False; [done|by intros H; apply H..].
  - change (<[S i:=new]> (x :: l)) with (x :: <[i:=new]> l).
    rewrite !filter_cons. by rewrite (IH i old new).
Qed.

(** X18. Deleting an invoice saved under a number that was not stored gives
    back the collection there was; when the number was stored, the entry it
    replaced is gone as well. *)
Theorem saveInvoice_deleteInvoice_cancel now inv ls :
  (invoiceNumber inv ∉ numbers (getAllInvoices ls) →
   getAllInvoices (deleteInvoice (invoiceNumber inv)
                     (saveInvoice now inv ls).2).2
     = getAllInvoices ls) ∧
  getAllInvoices (deleteInvoice (invoiceNumber inv)
                    (saveInvoice now inv ls).2).2
    = getAllInvoices (deleteInvoice (invoiceNumber inv) ls).2.
Proof.
  split; [apply deleteInvoice_saveInvoice_fresh|].
  destruct (list_find (λ x, invoiceNumber x = invoiceNumber inv)
              (getAllInvoices ls)) as [[i old]|] eqn:F.
  - rewrite !getAllInvoices_deleteInvoice.
    rewrite (saveInvoice_found now inv ls i old F). cbn [snd getAllInvoices].
    apply list_find_Some in F as (Hi & Ho & _).
    by apply (filter_insert_same_number _ _ i old).
  - apply find_None_iff in F.
    rewrite deleteInvoice_saveInvoice_fresh by done.
    rewrite getAllInvoices_deleteInvoice. by rewrite filter_absent.
Qed.

Lemma saveInvoice_deleteInvoice_cancel_witness :
  let ls := Some (Encoded [numbered "INV-001"]) in
  (invoiceNumber (numbered "INV-002") ∉ numbers (getAllInvoices ls)) ∧
  getAllInvoices (deleteInvoice (Some "INV-002")
                    (saveInvoice "t" (numbered "INV-002") ls).2).2
    = [numbered "INV-001"].
Proof.
  cbn zeta. split; [compute_done|].
  by apply (saveInvoice_deleteInvoice_cancel "t" (numbered "INV-002")
              (Some (Encoded [numbered "INV-001"]))).
Defined.

(** X19. A second [deleteInvoice] of the same number changes nothing, and
    two deletions give the same store in either order. *)
Theorem deleteInvoice_twice n m ls :
  deleteInvoice n (deleteInvoice n ls).2 = deleteInvoice n ls ∧
  deleteInvoice n (deleteInvoice m ls).2
    = deleteInvoice m (deleteInvoice n ls).2.
Proof.
  unfold deleteInvoice. cbn [snd getAllInvoices]. split; do 3 f_equal.
  - rewrite list_filter_filter. apply list_filter_iff. tauto.
  - rewrite !list_filter_filter. apply list_filter_iff. tauto.
Qed.

End MoreStorageFacts.

(** ** Invoice numbers *)

Section NumberingFacts.
Import State.

Implicit Types (js : engine) (ls : Storage.localStorage)
  (inv : Invoice.invoiceData).

Lemma generateInvoiceNumber_ext js flag ls ls' :
  Storage.getAllInvoices ls = Storage.getAllInvoices ls' →
  generateInvoiceNumber js flag ls = generateInvoiceNumber js flag ls'.
Proof. intros E. unfold generateInvoiceNumber. by rewrite E. Qed.

Lemma maximum_app a b : maximum (a ++ b) = Z.max (maximum a) (maximum b).
Proof.
  unfold maximum. induction a as [|x a IH]; cbn [app foldr].
  - pose proof (maximum_nonneg b) as H. unfold maximum in H. lia.
  - rewrite IH. lia.
Qed.

Lemma maximum_upper ns k : k ∈ ns → (k ≤ maximum ns)%Z.
Proof.
  unfold maximum. induction ns as [|x ns IH]; [by intros ?%elem_of_nil|].
  cbn [foldr]. intros [->|H]%elem_of_cons; [lia|]. apply IH in H. lia.
Qed.

Lemma ordinal_of_None js inv :
  ordinal_of js inv = None ↔ Invoice.invoiceNumber inv = None.
Proof. unfold ordinal_of. by destruct (Invoice.invoiceNumber inv). Qed.

Lemma ordinal_of_elem js l xs inv :
  mapM (ordinal_of js) l = Some xs → inv ∈ l →
  ∃ x, ordinal_of js inv = Some x ∧ x ∈ xs.
Proof.
  intros HF%mapM_Some [i Hi]%list_elem_of_lookup.
  destruct (Forall2_lookup_l _ _ _ _ _ HF Hi) as (k & Hk & Hinv).
  exists k. split; [done|]. by eapply list_elem_of_lookup_2.
Qed.

(** The ordinals of a collection whose ordinals are integers within
    bounds. *)
Lemma ordinals_within_list js b l xs :
  mapM (ordinal_of js) l = Some xs → ordinals_within js b l →
  ∃ ks, Forall2 (λ inv k, ordinal_of js inv = Some (Int k)) l ks ∧
        Forall (λ k, 0 ≤ k < b)%Z ks.
Proof.
  intros HF%mapM_Some. induction HF as [|inv x l xs Hx _ IH]; intros Hb.
  - exists []. by split.
  - destruct (Hb inv x) as (k & -> & Hk); [by left|done|].
    destruct IH as (ks & Hks & Hbs).
    { intros inv' x' Hin. apply Hb. by right. }
    exists (k :: ks). split; by constructor.
Qed.

(** When [generateInvoiceNumber] raises. *)
Lemma generateInvoiceNumber_Throw_iff js ls e :
  generateInvoiceNumber js true ls = Throw e ↔
    (e = TypeError ∧
     ∃ inv, inv ∈ Storage.getAllInvoices ls ∧
            Invoice.invoiceNumber inv = None) ∨
    (e = RangeError ∧
     (∀ inv, inv ∈ Storage.getAllInvoices ls →
             Invoice.invoiceNumber inv ≠ None) ∧
     Storage.getAllInvoices ls ≠ [] ∧
     (argument_limit js < Z.of_nat (length (Storage.getAllInvoices ls)))%Z).
Proof.
  unfold generateInvoiceNumber.
  destruct (Storage.getAllInvoices ls) as [|inv0 l] eqn:El.
  - split; [done|].
    intros [(_ & inv & Hin & _)|(_ & _ & Hne & _)]; [|done].
    by apply elem_of_nil in Hin.
  - destruct (mapM (ordinal_of js) (inv0 :: l)) as [xs|] eqn:E.
    + assert (length xs = length (inv0 :: l)) as ->.
      { symmetry. eapply Forall2_length. by apply mapM_Some. }
      assert (∀ inv, inv ∈ inv0 :: l → Invoice.invoiceNumber inv ≠ None)
        as Hall.
      { intros inv Hin Hnone.
        destruct (ordinal_of_elem _ _ _ _ E Hin) as (k & Hk & _).
        apply (ordinal_of_None js) in Hnone. congruence. }
      destruct (argument_limit js <? Z.of_nat (length (inv0 :: l)))%Z eqn:Elim.
      * apply Z.ltb_lt in Elim. split.
        -- intros [= <-]. right. by split_and!.
        -- intros [(_ & inv & Hin & Hnone)|(-> & _)]; [|done].
           by apply Hall in Hin.
      * apply Z.ltb_ge in Elim. split; [done|].
        intros [(_ & inv & Hin & Hnone)|(_ & _ & _ & Hlt)]; [|lia].
        by apply Hall in Hin.
    + split.
      * intros [= <-]. left. split; [done|].
        apply mapM_None, Exists_exists in E as (inv & Hin & Hnone).
        exists inv. split; [done|]. by apply (ordinal_of_None js).
      * intros [(-> & _)|(_ & Hall & _)]; [done|]. exfalso.
        apply mapM_None, Exists_exists in E as (inv & Hin & Hnone).
        apply (ordinal_of_None js) in Hnone. by apply Hall in Hin.
Qed.

(** [generateInvoiceNumber] returns on a store whose invoices all have a
    number and that the engine can pass to [Math.max]. *)
Lemma generateInvoiceNumber_returns js ls :
  (∀ inv, inv ∈ Storage.getAllInvoices ls →
          Invoice.invoiceNumber inv ≠ None) →
  (Z.of_nat (length (Storage.getAllInvoices ls)) ≤ argument_limit js)%Z →
  ∃ n, generateInvoiceNumber js true ls = Return n.
Proof.
  intros Hall Hlim.
  destruct (generateInvoiceNumber js true ls) as [n|e] eqn:E; [by exists n|].
  apply generateInvoiceNumber_Throw_iff in E
    as [(_ & inv & Hin & Hnone)|(_ & _ & _ & Hlt)]; [|lia].
  by apply Hall in Hin.
Qed.

(** The shape of every number [generateInvoiceNumber] returns from a store
    with ordinals below [2^53]. *)
Lemma generateInvoiceNumber_Return js ls n :
  generateInvoiceNumber js true ls = Return n →
  ordinals_within js (2 ^ 53) (Storage.getAllInvoices ls) →
  ∃ ks, Forall2 (λ inv k, ordinal_of js inv = Some (Int k))
                (Storage.getAllInvoices ls) ks ∧
        Forall (λ k, 0 ≤ k < 2 ^ 53)%Z ks ∧
        (Storage.getAllInvoices ls ≠ [] →
         Z.of_nat (length (Storage.getAllInvoices ls)) ≤ argument_limit js)%Z ∧
        n = "INV-" +:+ padStart 3 "0" (decimal (maximum ks + 1)).
Proof.
  rewrite (generateInvoiceNumber_ext js true ls
             (Some (Storage.Encoded (Storage.getAllInvoices ls)))) by done.
  destruct (Storage.getAllInvoices ls) as [|inv l] eqn:El.
  - intros [= <-] _. exists []. by split_and!.
  - intros Hgen Hb.
    destruct (mapM (ordinal_of js) (inv :: l)) as [xs|] eqn:E.
    + destruct (ordinals_within_list _ _ _ _ E Hb) as (ks & Hks & Hbs).
      assert (Z.of_nat (length (inv :: l)) ≤ argument_limit js)%Z as Hlim.
      { destruct (decide (Z.of_nat (length (inv :: l)) ≤ argument_limit js)%Z)
          as [|Hgt]; [done|].
        assert (generateInvoiceNumber js true
                  (Some (Storage.Encoded (inv :: l))) = Throw RangeError)
          as Hthrow; [|congruence].
        apply generateInvoiceNumber_Throw_iff. right.
        cbn [Storage.getAllInvoices]. split_and!; [done| |done|lia].
        intros inv' Hin Hnone.
        destruct (ordinal_of_elem _ _ _ _ E Hin) as (k & Hk & _).
        apply (ordinal_of_None js) in Hnone. congruence. }
      rewrite (generateInvoiceNumber_ordinals js _ ks) in Hgen by done.
      injection Hgen as <-. exists ks. by split_and!.
    + unfold generateInvoiceNumber in Hgen. cbn [Storage.getAllInvoices] in Hgen.
      by rewrite E in Hgen.
Qed.

Lemma generateInvoiceNumber_unseen js ls n :
  generateInvoiceNumber js true ls = Return n →
  ordinals_within js (2 ^ 53) (Storage.getAllInvoices ls) →
  Some n ∉ numbers (Storage.getAllInvoices ls).
Proof.
  intros Hgen Hb.
  destruct (generateInvoiceNumber_Return _ _ _ Hgen Hb)
    as (ks & Hks & Hbs & _ & ->).
  intros (x & Hx & [i Hi]%list_elem_of_lookup)%list_elem_of_fmap.
  destruct (Forall2_lookup_l _ _ _ _ _ Hks Hi) as (k & Hk & Hord).
  assert (0 ≤ maximum ks < 2 ^ 53)%Z as Hmax.
  { split; [apply maximum_nonneg|]. apply maximum_below; [lia|].
    eapply Forall_impl; [exact Hbs|]. cbn; lia. }
  rewrite (ordinal_of_padded js x (maximum ks + 1) 3) in Hord
    by (done || lia).
  injection Hord as <-. apply list_elem_of_lookup_2, maximum_upper in Hk. lia.
Qed.

(** X10. On a store with ordinals below [2^53], the number
    [generateInvoiceNumber] makes is the number of no stored invoice, so
    saving under it adds an entry and overwrites none. *)
Theorem generateInvoiceNumber_fresh js ls n now inv :
  generateInvoiceNumber js true ls = Return n →
  ordinals_within js (2 ^ 53) (Storage.getAllInvoices ls) →
  Invoice.invoiceNumber inv = Some n →
  (Some n ∉ numbers (Storage.getAllInvoices ls)) ∧
  Storage.getInvoice (Some n) ls = None ∧
  Storage.getAllInvoices (Storage.saveInvoice now inv ls).2
    = Storage.getAllInvoices ls ++ [Invoice.with_savedAt now inv].
Proof.
  intros Hgen Hb Hinv.
  pose proof (generateInvoiceNumber_unseen _ _ _ Hgen Hb) as Hfresh.
  split_and!; [done|by apply getInvoice_None_iff|].
  rewrite saveInvoice_fresh by (by rewrite Hinv). done.
Qed.

(** The ordinals of a written-out list of invoices. *)
Ltac ordinals_of_list :=
  intros inv x Hin; cbn [Storage.getAllInvoices] in Hin;
  repeat (apply elem_of_cons in Hin as [->|Hin]);
  try (by apply elem_of_nil in Hin);
  intros [= <-]; eexists; (split; [reflexivity|split; [done|done]]).

Lemma generateInvoiceNumber_fresh_witness :
  let ls := Some (Storage.Encoded [numbered "INV-001"; numbered "INV-0042";
                                   numbered "memo"]) in
  generateInvoiceNumber an_engine true ls = Return "INV-043" ∧
  ordinals_within an_engine (2 ^ 53) (Storage.getAllInvoices ls) ∧
  Storage.getInvoice (Some "INV-043") ls = None.
Proof.
  cbn zeta.
  assert (ordinals_within an_engine (2 ^ 53)
            (Storage.getAllInvoices
               (Some (Storage.Encoded [numbered "INV-001";
                                       numbered "INV-0042";
                                       numbered "memo"])))) as Hb
    by ordinals_of_list.
  split; [reflexivity|]. split; [exact Hb|].
  by apply (generateInvoiceNumber_fresh an_engine _ "INV-043" "t"
              (numbered "INV-043")).
Defined.

(** X11. [generateInvoiceNumber] raises in two cases only: a [TypeError]
    when a stored invoice has no [invoiceNumber], and otherwise a
    [RangeError] when the store holds more invoices than the engine takes
    as arguments of [Math.max]; when [getAllInvoices] is not defined it
    returns ["INV-001"] whatever is stored. *)
Theorem generateInvoiceNumber_raises js ls e :
  (generateInvoiceNumber js true ls = Throw e ↔
     (e = TypeError ∧
      ∃ inv, inv ∈ Storage.getAllInvoices ls ∧
             Invoice.invoiceNumber inv = None) ∨
     (e = RangeError ∧
      (∀ inv, inv ∈ Storage.getAllInvoices ls →
              Invoice.invoiceNumber inv ≠ None) ∧
      Storage.getAllInvoices ls ≠ [] ∧
      (argument_limit js
         < Z.of_nat (length (Storage.getAllInvoices ls)))%Z)) ∧
  generateInvoiceNumber js false ls = Return "INV-001".
Proof. split; [apply generateInvoiceNumber_Throw_iff|done]. Qed.

Lemma generateInvoiceNumber_raises_witness :
  let unnumbered :=
    Invoice.mkInvoiceData None None None None None None None None None None
      None in
  let ls := (Storage.importInvoices
               (Storage.Loaded (Storage.ArrayOf [numbered "INV-001";
                                                 unnumbered])) None).2 in
  let two := mkEngine 2 (λ _, PlusInfinity) decimal in
  let full := Some (Storage.Encoded [numbered "INV-001"; numbered "INV-002";
                                     numbered "INV-003"]) in
  (None ∈ numbers (Storage.getAllInvoices ls)) ∧
  generateInvoiceNumber an_engine true ls = Throw TypeError ∧
  generateInvoiceNumber two true full = Throw RangeError.
Proof.
  cbn zeta. split; [compute_done|]. split.
  - apply (generateInvoiceNumber_raises an_engine _ TypeError). left.
    split; [done|].
    exists (Invoice.mkInvoiceData None None None None None None None None
              None None None).
    split; [|reflexivity]. apply list_elem_of_lookup. by exists 1%nat.
  - apply (generateInvoiceNumber_raises (mkEngine 2 (λ _, PlusInfinity) decimal)
             _ RangeError). right.
    split_and!; [done| |done|done].
    intros inv Hin. cbn [Storage.getAllInvoices] in Hin.
    repeat (apply elem_of_cons in Hin as [->|Hin]); try done.
    by apply elem_of_nil in Hin.
Defined.

(** X20. Invoices saved one after the other under the numbers
    [generateInvoiceNumber] makes get consecutive numbers, while the
    ordinals stay below [2^53 - 1] and the store within what the engine
    passes to [Math.max]: after a save under the number made, the next
    number made is one higher. *)
Theorem generateInvoiceNumber_consecutive js ls n now inv :
  generateInvoiceNumber js true ls = Return n →
  ordinals_within js (2 ^ 53 - 1) (Storage.getAllInvoices ls) →
  (Z.of_nat (length (Storage.getAllInvoices ls)) + 1 ≤ argument_limit js)%Z →
  Invoice.invoiceNumber inv = Some n →
  ∃ k, (1 ≤ k < 2 ^ 53)%Z ∧
       n = "INV-" +:+ padStart 3 "0" (decimal k) ∧
       generateInvoiceNumber js true (Storage.saveInvoice now inv ls).2
         = Return ("INV-" +:+ padStart 3 "0" (decimal (k + 1))).
Proof.
  intros Hgen Hb1 Hlim Hinv.
  assert (ordinals_within js (2 ^ 53) (Storage.getAllInvoices ls)) as Hb.
  { intros x y Hx Hy. destruct (Hb1 x y Hx Hy) as (k & -> & Hk).
    exists k. split; [done|lia]. }
  pose proof (generateInvoiceNumber_unseen _ _ _ Hgen Hb) as Hfresh.
  destruct (ordinals_within_list js (2 ^ 53 - 1) (Storage.getAllInvoices ls)
              (default [] (mapM (ordinal_of js) (Storage.getAllInvoices ls))))
    as (ks1 & Hks1 & Hbs1); [|done|].
  { destruct (generateInvoiceNumber_Return _ _ _ Hgen Hb) as (ks & Hks & _).
    assert (mapM (ordinal_of js) (Storage.getAllInvoices ls)
            = Some (Int <$> ks)) as ->; [|done].
    apply mapM_Some. by apply Forall2_fmap_r. }
  destruct (generateInvoiceNumber_Return _ _ _ Hgen Hb)
    as (ks & Hks & Hbs & _ & ->).
  assert (ks = ks1) as ->.
  { clear -Hks Hks1. revert ks1 Hks1.
    induction Hks as [|x k l ks Hk _ IH]; intros ks1 Hks1.
    - by inversion Hks1.
    - inversion Hks1 as [|? k1 ? ks1' Hk1 Hrest]; subst.
      f_equal; [congruence|by apply IH]. }
  assert (0 ≤ maximum ks1 < 2 ^ 53 - 1)%Z as Hmax.
  { split; [apply maximum_nonneg|]. apply maximum_below; [lia|].
    eapply Forall_impl; [exact Hbs1|]. cbn; lia. }
  exists (maximum ks1 + 1)%Z. split_and!; [lia|lia|done|].
  rewrite saveInvoice_fresh by (by rewrite Hinv). cbn [snd].
  rewrite (generateInvoiceNumber_ordinals js _ (ks1 ++ [maximum ks1 + 1]%Z)).
  - rewrite maximum_app. do 4 f_equal. unfold maximum at 2. cbn [foldr]. lia.
  - by destruct (Storage.getAllInvoices ls).
  - rewrite length_app. cbn [length]. lia.
  - apply Forall2_app; [done|]. constructor; [|constructor].
    apply (ordinal_of_padded _ _ _ 3); [lia|]. by rewrite <- Hinv.
  - apply Forall_app. split; [done|]. constructor; [lia|constructor].
Qed.

Lemma generateInvoiceNumber_consecutive_witness :
  let ls := Some (Storage.Encoded [numbered "INV-099"]) in
  generateInvoiceNumber an_engine true ls = Return "INV-100" ∧
  ordinals_within an_engine (2 ^ 53 - 1) (Storage.getAllInvoices ls) ∧
  Invoice.invoiceNumber (numbered "INV-100") = Some "INV-100" ∧
  ∃ k, (1 ≤ k < 2 ^ 53)%Z ∧
       "INV-100" = "INV-" +:+ padStart 3 "0" (decimal k) ∧
       generateInvoiceNumber an_engine true
         (Storage.saveInvoice "t" (numbered "INV-100") ls).2
         = Return ("INV-" +:+ padStart 3 "0" (decimal (k + 1))).
Proof.
  cbn zeta.
  assert (ordinals_within an_engine (2 ^ 53 - 1)
            (Storage.getAllInvoices
               (Some (Storage.Encoded [numbered "INV-099"])))) as Hb
    by ordinals_of_list.
  split; [reflexivity|]. split; [exact Hb|]. split; [reflexivity|].
  by apply (generateInvoiceNumber_consecutive an_engine
              (Some (Storage.Encoded [numbered "INV-099"])) "INV-100" "t"
              (numbered "INV-100")).
Defined.

(** X21. On a store with ordinals below [2^53], a number is made again once
    its invoice is deleted: after saving under the number made and deleting
    that invoice, the same number is made. *)
Theorem generateInvoiceNumber_reissued js ls n now inv :
  generateInvoiceNumber js true ls = Return n →
  ordinals_within js (2 ^ 53) (Storage.getAllInvoices ls) →
  Invoice.invoiceNumber inv = Some n →
  generateInvoiceNumber js true
    (Storage.deleteInvoice (Some n) (Storage.saveInvoice now inv ls).2).2
  = Return n.
Proof.
  intros Hgen Hb Hinv. rewrite <- Hgen. apply generateInvoiceNumber_ext.
  rewrite <- Hinv. apply deleteInvoice_saveInvoice_fresh. rewrite Hinv.
  by apply (generateInvoiceNumber_unseen js).
Qed.

Lemma generateInvoiceNumber_reissued_witness :
  let ls := Some (Storage.Encoded [numbered "INV-001"; numbered "INV-002"]) in
  generateInvoiceNumber an_engine true ls = Return "INV-003" ∧
  ordinals_within an_engine (2 ^ 53) (Storage.getAllInvoices ls) ∧
  generateInvoiceNumber an_engine true
    (Storage.deleteInvoice (Some "INV-003")
       (Storage.saveInvoice "t" (numbered "INV-003") ls).2).2
  = Return "INV-003".
Proof.
  cbn zeta.
  assert (ordinals_within an_engine (2 ^ 53)
            (Storage.getAllInvoices
               (Some (Storage.Encoded [numbered "INV-001";
                                       numbered "INV-002"])))) as Hb
    by ordinals_of_list.
  split; [reflexivity|]. split; [exact Hb|].
  by apply (generateInvoiceNumber_reissued an_engine _ "INV-003" "t"
              (numbered "INV-003")).
Defined.

(** X22. [resetState] on a store whose invoices all have a number, and
    which the engine can pass to [Math.max], returns normally and leaves a
    blank invoice with the counter at 1, under the number
    [generateInvoiceNumber] makes: one no stored invoice has when the
    ordinals are below [2^53].  When it raises (a [TypeError] with a stored
    invoice that has no number), it has cleared the parties, the items and
    the money fields, and leaves the invoice number, the dates and the
    counter as they were. *)
Theorem resetState_outcome js ls today st :
  let r := resetState js true ls today st in
  ((∀ inv, inv ∈ Storage.getAllInvoices ls →
           Invoice.invoiceNumber inv ≠ None) →
   (Z.of_nat (length (Storage.getAllInvoices ls)) ≤ argument_limit js)%Z →
   ∃ n, r = (Return tt,
             {| business := blank_party; client := blank_party; items := [];
                taxRate := 0; discount := 0; subtotal := 0; total := 0;
                invoiceNumber := n; issueDate := today; dueDate := "";
                nextItemId := 1 |}) ∧
        generateInvoiceNumber js true ls = Return n ∧
        (ordinals_within js (2 ^ 53) (Storage.getAllInvoices ls) →
         Some n ∉ numbers (Storage.getAllInvoices ls))) ∧
  (∀ inv, inv ∈ Storage.getAllInvoices ls →
          Invoice.invoiceNumber inv = None → r.1 = Throw TypeError) ∧
  (∀ e, r.1 = Throw e →
        business r.2 = blank_party ∧ client r.2 = blank_party ∧
        items r.2 = [] ∧ taxRate r.2 = 0%Q ∧ discount r.2 = 0%Q ∧
        subtotal r.2 = 0%Q ∧ total r.2 = 0%Q ∧
        invoiceNumber r.2 = invoiceNumber st ∧
        issueDate r.2 = issueDate st ∧ dueDate r.2 = dueDate st ∧
        nextItemId r.2 = nextItemId st).
Proof.
  cbn zeta. unfold resetState. split_and!.
  - intros Hall Hlim.
    destruct (generateInvoiceNumber_returns js ls Hall Hlim) as [n E].
    rewrite E. exists n. split_and!; [done|done|].
    by apply (generateInvoiceNumber_unseen js).
  - intros inv Hin Hnone.
    assert (generateInvoiceNumber js true ls = Throw TypeError) as ->; [|done].
    apply generateInvoiceNumber_Throw_iff. left. split; [done|]. by exists inv.
  - intros e. by destruct (generateInvoiceNumber js true ls).
Qed.

Lemma resetState_outcome_witness :
  let ls := Some (Storage.Encoded [numbered "INV-001"]) in
  let st := (addItem (mkItemFields (Some "Design") (Num 3) (Num 50))
               (initial "2024-05-01")).2 in
  (∀ inv, inv ∈ Storage.getAllInvoices ls →
          Invoice.invoiceNumber inv ≠ None) ∧
  (Z.of_nat (length (Storage.getAllInvoices ls))
     ≤ argument_limit an_engine)%Z ∧
  invoiceNumber (resetState an_engine true ls "2024-06-01" st).2 = "INV-002" ∧
  nextItemId (resetState an_engine true ls "2024-06-01" st).2 = 1%Z.
Proof.
  cbn zeta.
  assert (∀ inv, inv ∈ Storage.getAllInvoices
                         (Some (Storage.Encoded [numbered "INV-001"])) →
                 Invoice.invoiceNumber inv ≠ None) as Hall.
  { intros inv Hin. cbn in Hin. by apply list_elem_of_singleton in Hin as ->. }
  split; [exact Hall|]. split; [done|].
  destruct (resetState_outcome an_engine
              (Some (Storage.Encoded [numbered "INV-001"]))
              "2024-06-01"
              (addItem (mkItemFields (Some "Design") (Num 3) (Num 50))
                 (initial "2024-05-01")).2) as [Hok _].
  destruct (Hok Hall) as (n & Hr & Hn & _); [done|].
  cbn zeta in Hr. rewrite Hr.
  cbn [snd invoiceNumber nextItemId]. split; [|done].
  vm_compute in Hn. by injection Hn as <-.
Defined.

End NumberingFacts.

(** ** The handlers *)

Section HandlerFacts.
Import State UI.

Implicit Types (js : engine) (st : state) (ls : Storage.localStorage).

Lemma is_empty_true s : is_empty s = true ↔ s = "".
Proof. by destruct s. Qed.

Lemma is_empty_false s : is_empty s = false ↔ s ≠ "".
Proof. by destruct s. Qed.

(** X25. [handleSaveInvoice] saves nothing and changes nothing when the
    business name or the client name is empty or there is no item.
    Otherwise it writes what [saveInvoice] of the state writes, so that
    [getInvoice] of the number of the state returns a record with the
    parties, items, amounts, number and dates of the state and the time of
    the save as [savedAt]; it reports success when [saveInvoice] returns
    [true], and keeps the state unless a new invoice is asked for. *)
Theorem handleSaveInvoice_validates js now today due createNew flag st ls :
  let r := handleSaveInvoice js now today due createNew flag st ls in
  ((Party.name (business st) = "" ∨ Party.name (client st) = ""
    ∨ items st = []) →
   r.2 = ls ∧ r.1.2 = st ∧ r.1.1.2 = Return tt ∧
   (r.1.1.1 = PleaseEnterBusinessName ∨ r.1.1.1 = PleaseEnterClientName
    ∨ r.1.1.1 = PleaseAddAtLeastOneItem)) ∧
  (Party.name (business st) ≠ "" → Party.name (client st) ≠ "" →
   items st ≠ [] →
   r.2 = (Storage.saveInvoice now (state_object st) ls).2 ∧
   ((Storage.saveInvoice now (state_object st) ls).1 = true →
    r.1.1.1 = SavedSuccessfully (invoiceNumber st)) ∧
   (∃ d, Storage.getInvoice (Some (invoiceNumber st)) r.2 = Some d ∧
         Invoice.savedAt d = Some now ∧
         Invoice.business d = Some (business st) ∧
         Invoice.client d = Some (client st) ∧
         Invoice.items d = Some (items st) ∧
         Invoice.taxRate d = Some (taxRate st) ∧
         Invoice.discount d = Some (discount st) ∧
         Invoice.subtotal d = Some (subtotal st) ∧
         Invoice.total d = Some (total st) ∧
         Invoice.invoiceNumber d = Some (invoiceNumber st) ∧
         Invoice.issueDate d = Some (issueDate st) ∧
         Invoice.dueDate d = Some (dueDate st)) ∧
   (createNew = false → r.1.2 = st ∧ r.1.1.2 = Return tt)).
Proof.
  cbn zeta. unfold handleSaveInvoice. split.
  - intros Hbad.
    destruct (is_empty (Party.name (business st))) eqn:Eb; [by auto|].
    destruct (is_empty (Party.name (client st))) eqn:Ec; [by auto 6|].
    destruct (items st) as [|x l] eqn:Ei; [by auto 6|].
    apply is_empty_false in Eb, Ec. by destruct Hbad as [?|[?|?]].
  - intros Hb%is_empty_false Hc%is_empty_false Hi. rewrite Hb, Hc.
    destruct (items st) as [|x l] eqn:Ei; [done|]. rewrite <- Ei.
    pose proof (getInvoice_saveInvoice now (state_object st) ls) as Hget.
    cbn [Invoice.invoiceNumber state_object] in Hget.
    destruct (Storage.saveInvoice now (state_object st) ls)
      as [success ls1] eqn:Es.
    cbn [fst snd] in *.
    assert (∃ d, Storage.getInvoice (Some (invoiceNumber st)) ls1 = Some d ∧
                 Invoice.savedAt d = Some now ∧
                 Invoice.business d = Some (business st) ∧
                 Invoice.client d = Some (client st) ∧
                 Invoice.items d = Some (items st) ∧
                 Invoice.taxRate d = Some (taxRate st) ∧
                 Invoice.discount d = Some (discount st) ∧
                 Invoice.subtotal d = Some (subtotal st) ∧
                 Invoice.total d = Some (total st) ∧
                 Invoice.invoiceNumber d = Some (invoiceNumber st) ∧
                 Invoice.issueDate d = Some (issueDate st) ∧
                 Invoice.dueDate d = Some (dueDate st)) as Hrec.
    { exists (Invoice.with_savedAt now (state_object st)).
      split; [exact Hget|]. by split_and!. }
    destruct success.
    + destruct createNew.
      * destruct (start_new_invoice js flag ls1 today due st) as [d st1].
        by split_and!.
      * by split_and!.
    + by split_and!.
Qed.

Lemma handleSaveInvoice_validates_witness :
  let st := updateClient (mkPartyData (Some "Bola") None None)
              (updateBusiness (mkPartyData (Some "Acme") None None)
                 (addItem blank_item (initial "2024-05-01")).2) in
  let r := handleSaveInvoice an_engine "t" "2024-05-01" "2024-05-15" false
             true st None in
  Party.name (business st) ≠ "" ∧ Party.name (client st) ≠ "" ∧
  items st ≠ [] ∧
  (Storage.saveInvoice "t" (state_object st) None).1 = true ∧
  r.1.1.1 = SavedSuccessfully "INV-001" ∧
  (∃ d, Storage.getInvoice (Some "INV-001") r.2 = Some d ∧
        Invoice.savedAt d = Some "t" ∧
        Invoice.items d = Some (items st)) ∧
  (handleSaveInvoice an_engine "t" "2024-05-01" "2024-05-15" false true
     (initial "2024-05-01") None).2 = None.
Proof.
  cbn zeta.
  destruct (handleSaveInvoice_validates an_engine "t" "2024-05-01"
              "2024-05-15" false true
              (updateClient (mkPartyData (Some "Bola") None None)
                 (updateBusiness (mkPartyData (Some "Acme") None None)
                    (addItem blank_item (initial "2024-05-01")).2)) None)
    as [_ Hok].
  destruct (handleSaveInvoice_validates an_engine "t" "2024-05-01"
              "2024-05-15" false true (initial "2024-05-01") None)
    as [Hbad _].
  destruct Hok as (_ & Hshown & (d & Hget & Hat & _ & _ & Hitems & _) & _);
    [done..|].
  destruct Hbad as (Hls & _); [by left|].
  split_and!; [done|done|done|done|by apply Hshown| |exact Hls].
  by exists d.
Defined.

Lemma number_or_Some q : (number_or (Some q) 0 == q)%Q.
Proof.
  unfold number_or. destruct (Qeq_bool q 0) eqn:E; [|reflexivity].
  apply Qeq_bool_iff in E. by symmetry.
Qed.

Lemma string_or_Some s cur : s ≠ "" → string_or (Some s) cur = s.
Proof. by destruct s. Qed.

(** X26. An invoice saved from the state and loaded back from the history
    comes back as it was: parties, items, numbers (up to [==]), invoice
    number and dates, provided number and dates are not empty; the counter
    comes back above the identifiers of the items when these are below
    [2^53] in size.  An empty due date is not restored: the due date then
    stays what it was before the load. *)
Theorem save_then_load_restores now st cur ls :
  invoiceNumber st ≠ "" → issueDate st ≠ "" →
  let ls' := (Storage.saveInvoice now (state_object st) ls).2 in
  let st' := load_from_history (invoiceNumber st) cur ls' in
  business st' = business st ∧ client st' = client st ∧
  items st' = items st ∧
  (taxRate st' == taxRate st)%Q ∧ (discount st' == discount st)%Q ∧
  (subtotal st' == subtotal st)%Q ∧ (total st' == total st)%Q ∧
  invoiceNumber st' = invoiceNumber st ∧ issueDate st' = issueDate st ∧
  (dueDate st ≠ "" → dueDate st' = dueDate st) ∧
  (dueDate st = "" → dueDate st' = dueDate cur) ∧
  (items st = [] → nextItemId st' = nextItemId cur) ∧
  ((∀ i, i ∈ LineItem.id <$> items st → (- 2 ^ 53 ≤ i < 2 ^ 53)%Z) →
   ∀ i, i ∈ LineItem.id <$> items st → (i < nextItemId st')%Z).
Proof.
  intros Hn Hi. cbn zeta. unfold load_from_history.
  pose proof (getInvoice_saveInvoice now (state_object st) ls) as Hget.
  cbn [Invoice.invoiceNumber state_object] in Hget. rewrite Hget.
  unfold loadState.
  cbn [business client items taxRate discount subtotal total invoiceNumber
       issueDate dueDate nextItemId Invoice.with_savedAt state_object
       Invoice.business Invoice.client Invoice.items Invoice.taxRate
       Invoice.discount Invoice.subtotal Invoice.total Invoice.invoiceNumber
       Invoice.issueDate Invoice.dueDate default].
  split_and!; try done; try apply number_or_Some;
    try (by apply string_or_Some).
  - by intros ->.
  - by intros ->.
  - intros Hids i Hin. destruct (items st) as [|x xs] eqn:E.
    { by apply elem_of_nil in Hin. }
    rewrite fmap_cons in Hin, Hids.
    pose proof (Math_max_upper _ _ _ Hin) as Hle.
    pose proof (Hids _ (Math_max_elem (LineItem.id <$> xs) (LineItem.id x)))
      as Hm.
    change (LineItem.id <$> id (x :: xs))
      with (LineItem.id x :: (LineItem.id <$> xs)).
    cbn beta iota. rewrite nearest_double_small by lia. lia.
Qed.

Lemma save_then_load_restores_witness :
  let st := updateItem 1 (mkItemFields None Undefined (Num 50))
              (addItem blank_item (initial "2024-05-01")).2 in
  let ls' := (Storage.saveInvoice "t" (state_object st) None).2 in
  invoiceNumber st ≠ "" ∧ issueDate st ≠ "" ∧
  items (load_from_history "INV-001" (initial "2024-06-01") ls') = items st ∧
  issueDate (load_from_history "INV-001" (initial "2024-06-01") ls')
    = "2024-05-01".
Proof.
  cbn zeta.
  destruct (save_then_load_restores "t"
              (updateItem 1 (mkItemFields None Undefined (Num 50))
                 (addItem blank_item (initial "2024-05-01")).2)
              (initial "2024-06-01") None)
    as (_ & _ & Hitems & _ & _ & _ & _ & _ & Hdate & _); [done..|].
  split_and!; [done|done|exact Hitems|exact Hdate].
Defined.



(** X28. The question before leaving the page is not asked when no name
    and no item description is filled in, nor when an invoice with the
    number of the state is stored; it is asked when a name is filled in and
    no invoice with that number is stored.  So after a save the question is
    not asked for any state that keeps the number, whatever was edited
    since. *)
Theorem warns_before_unload_cases now st st2 ls :
  (Party.name (business st) = "" → Party.name (client st) = "" →
   Forall (λ item, LineItem.description item = "") (items st) →
   warns_before_unload st ls = false) ∧
  (is_Some (Storage.getInvoice (Some (invoiceNumber st)) ls) →
   warns_before_unload st ls = false) ∧
  (Party.name (business st) ≠ "" →
   Storage.getInvoice (Some (invoiceNumber st)) ls = None →
   warns_before_unload st ls = true) ∧
  (invoiceNumber st2 = invoiceNumber st →
   warns_before_unload st2
     (Storage.saveInvoice now (state_object st) ls).2 = false).
Proof.
  split_and!.
  - intros Hb Hc Hitems. unfold warns_before_unload. rewrite Hb, Hc.
    cbn [is_empty negb orb].
    assert (existsb (λ item, negb (is_empty (LineItem.description item)))
              (items st) = false) as ->; [|done].
    induction Hitems as [|x l Hx _ IH]; [done|].
    cbn [existsb]. by rewrite Hx, IH.
  - intros [x Hx]. unfold warns_before_unload. rewrite Hx.
    by destruct (_ || _).
  - intros Hb%is_empty_false Hnone. unfold warns_before_unload.
    by rewrite Hb, Hnone.
  - intros E. unfold warns_before_unload. rewrite E.
    pose proof (getInvoice_saveInvoice now (state_object st) ls) as Hget.
    cbn [Invoice.invoiceNumber state_object] in Hget. rewrite Hget.
    by destruct (_ || _).
Qed.

Lemma warns_before_unload_cases_witness :
  let st := updateBusiness (mkPartyData (Some "Acme") None None)
              (addItem blank_item (initial "2024-05-01")).2 in
  let edited := updateItem 1 (mkItemFields None Undefined (Num 50)) st in
  Party.name (business st) ≠ "" ∧
  Storage.getInvoice (Some (invoiceNumber st)) None = None ∧
  invoiceNumber edited = invoiceNumber st ∧
  warns_before_unload st None = true ∧
  warns_before_unload edited
    (Storage.saveInvoice "t" (state_object st) None).2 = false.
Proof.
  cbn zeta.
  destruct (warns_before_unload_cases "t"
              (updateBusiness (mkPartyData (Some "Acme") None None)
                 (addItem blank_item (initial "2024-05-01")).2)
              (updateItem 1 (mkItemFields None Undefined (Num 50))
                 (updateBusiness (mkPartyData (Some "Acme") None None)
                    (addItem blank_item (initial "2024-05-01")).2))
              None) as (_ & _ & Hwarn & Hsaved).
  split_and!; [done|done|done|by apply Hwarn|by apply Hsaved].
Defined.

End HandlerFacts.
